(** * mythril/ethereum/util.py: the version-pragma resolution pipeline

    A shallow embedding of [remove_comments_strings], [parse_pragma],
    [extract_version] and [extract_binary], and the properties of the
    pipeline that the specification states.

    Python strings are modelled as [string]; a character is a code point
    below 256.  Exceptions are results of an explicit [outcome] type. *)

From Stdlib Require Import Strings.String Strings.Ascii Lists.List Bool.Bool
  Arith.PeanoNat NArith.NArith Numbers.DecimalString micromega.Lia.
From Stdlib Require Import ZArith.ZArith.
From Stdlib Require Strings.Byte Numbers.HexadecimalString
  Numbers.HexadecimalN.
Import ListNotations.
Open Scope string_scope.
Open Scope bool_scope.

(** ** Python string primitives *)

Module PyStr.

Definition newline : ascii := "010"%char.
Definition tab : ascii := "009"%char.
Definition dquote : ascii := "034"%char.
Definition squote : ascii := "039"%char.
Definition backslash : ascii := "092"%char.

Definition str1 (c : ascii) : string := String c EmptyString.

(** [s[:n]] *)
Fixpoint take (n : nat) (s : string) : string :=
  match n, s with
  | S n', String c s' => String c (take n' s')
  | _, _ => EmptyString
  end.

(** [s[n:]] *)
Fixpoint drop (n : nat) (s : string) : string :=
  match n, s with
  | S n', String _ s' => drop n' s'
  | _, _ => s
  end.

(** [s.startswith(p)] *)
Fixpoint startswith (p s : string) : bool :=
  match p, s with
  | EmptyString, _ => true
  | String a p', String b s' => Ascii.eqb a b && startswith p' s'
  | String _ _, EmptyString => false
  end.

(** [s.find(p)]: the lowest index at which [p] occurs in [s]. *)
Fixpoint find (p s : string) : option nat :=
  if startswith p s then Some 0
  else match s with
       | EmptyString => None
       | String _ s' => option_map S (find p s')
       end.

(** [s.find(p, start)] for [start <= len(s)]. *)
Definition find_from (p s : string) (start : nat) : option nat :=
  option_map (Nat.add start) (find p (drop start s)).

(** [p in s] *)
Definition contains (p s : string) : bool :=
  match find p s with Some _ => true | None => false end.

(** [sep.join(l)] *)
Fixpoint join (sep : string) (l : list string) : string :=
  match l with
  | [] => EmptyString
  | [x] => x
  | x :: rest => x ++ sep ++ join sep rest
  end.

(** [s.split(c)] for a one-character separator. *)
Fixpoint split (c : ascii) (s : string) : list string :=
  match s with
  | EmptyString => [EmptyString]
  | String a s' =>
      if Ascii.eqb a c then EmptyString :: split c s'
      else match split c s' with
           | l :: ls => String a l :: ls
           | [] => [str1 a]
           end
  end.

(** [str.isspace] on one character (code points below 256). *)
Definition isspace (c : ascii) : bool :=
  let n := nat_of_ascii c in
  (Nat.leb 9 n && Nat.leb n 13) || (Nat.leb 28 n && Nat.leb n 32)
  || Nat.eqb n 133 || Nat.eqb n 160.

Definition isdigit (c : ascii) : bool :=
  let n := nat_of_ascii c in Nat.leb 48 n && Nat.leb n 57.

(** [s.rstrip()] *)
Fixpoint rstrip (s : string) : string :=
  match s with
  | EmptyString => EmptyString
  | String c s' =>
      match rstrip s' with
      | EmptyString => if isspace c then EmptyString else str1 c
      | r => String c r
      end
  end.

(** [s.replace(str1 c, "")] *)
Fixpoint remove_char (c : ascii) (s : string) : string :=
  match s with
  | EmptyString => EmptyString
  | String a s' =>
      if Ascii.eqb a c then remove_char c s' else String a (remove_char c s')
  end.

(** The longest prefix of characters satisfying [f], and the rest. *)
Fixpoint span (f : ascii -> bool) (s : string) : string * string :=
  match s with
  | EmptyString => (EmptyString, EmptyString)
  | String c s' =>
      if f c then let (a, b) := span f s' in (String c a, b)
      else (EmptyString, s)
  end.

(** [s[-1]] *)
Fixpoint last (s : string) : option ascii :=
  match s with
  | EmptyString => None
  | String c EmptyString => Some c
  | String _ s' => last s'
  end.

(** [s[:-1]] *)
Fixpoint init (s : string) : string :=
  match s with
  | EmptyString => EmptyString
  | String _ EmptyString => EmptyString
  | String c s' => String c (init s')
  end.

End PyStr.
Import PyStr.

(** ** The lexical stripper: [remove_comments_strings] *)

(** The four alternatives of the pattern [VOID_START]: two slashes, a slash
    and a star, a double quote, a single quote. *)
Inductive void_start := LineComment | BlockComment | DoubleQuote | SingleQuote.

(** [m.end() - m.start()] for a match of [VOID_START]. *)
Definition void_len (t : void_start) : nat :=
  match t with
  | LineComment | BlockComment => 2
  | DoubleQuote | SingleQuote => 1
  end.

(** [VOID_START.match(s)]: the alternatives are tried in order at the first
    position. *)
Definition VOID_START_match (s : string) : option void_start :=
  if startswith "//" s then Some LineComment
  else if startswith "/*" s then Some BlockComment
  else if startswith (str1 dquote) s then Some DoubleQuote
  else if startswith (str1 squote) s then Some SingleQuote
  else None.

(** [VOID_START.search(s)]: the leftmost match, as [(m.start(), m[0])]. *)
Fixpoint VOID_START_search (s : string) : option (nat * void_start) :=
  match VOID_START_match s with
  | Some t => Some (0, t)
  | None =>
      match s with
      | EmptyString => None
      | String _ s' =>
          match VOID_START_search s' with
          | Some (i, t) => Some (S i, t)
          | None => None
          end
      end
  end.

(** [QUOTE_END] and [DQUOTE_END], a quote under a negative lookbehind for a
    backslash: [search] for the leftmost quote [q] that is not preceded by a
    backslash, returning [m2.end()].  [escaped] says whether the character before the
    current position is a backslash; the search runs on the slice
    [todo[m.end():]], so it starts with no character before it. *)
Fixpoint quote_end_from (q : ascii) (escaped : bool) (s : string) : option nat :=
  match s with
  | EmptyString => None
  | String c s' =>
      if Ascii.eqb c q && negb escaped then Some 1
      else option_map S (quote_end_from q (Ascii.eqb c backslash) s')
  end.

Definition QUOTE_END_search (s : string) : option nat :=
  quote_end_from squote false s.
Definition DQUOTE_END_search (s : string) : option nat :=
  quote_end_from dquote false s.

(** One iteration of the [while True] loop on the state [(todo, done)]:
    either the loop breaks with the final [done], or it goes on. *)
Inductive step_result :=
| Break (done : string)
| Continue (todo done : string).

Definition strip_step (todo done : string) : step_result :=
  match VOID_START_search todo with
  | None => Break (done ++ todo)
  | Some (start, t) =>
      let done := done ++ take start todo in
      let m_end := start + void_len t in
      match t with
      | LineComment =>
          match find_from (str1 newline) todo m_end with
          | None => Continue "" done
          | Some e => Continue (drop e todo) done
          end
      | BlockComment =>
          let e := find_from "*/" todo m_end in
          let done := done ++ " " in
          match e with
          | None => Continue "" done
          | Some e => Continue (drop (e + 2) todo) done
          end
      | SingleQuote | DoubleQuote =>
          let m2 := match t with
                    | SingleQuote => QUOTE_END_search (drop m_end todo)
                    | _ => DQUOTE_END_search (drop m_end todo)
                    end in
          match m2 with
          | None => Break done
          | Some m2_end => Continue (drop (m_end + m2_end) todo) done
          end
      end
  end.

(** The loop, bounded by [fuel] iterations; [None] when the bound is hit. *)
Fixpoint strip_loop (fuel : nat) (todo done : string) : option string :=
  match fuel with
  | O => None
  | S fuel' =>
      match strip_step todo done with
      | Break r => Some r
      | Continue todo' done' => strip_loop fuel' todo' done'
      end
  end.

(** [remove_comments_strings(prg)].  Every iteration that continues shortens
    [todo], so [len(todo) + 1] iterations suffice ([strip_loop_enough]); the
    default is never taken ([remove_comments_strings_run]). *)
Definition remove_comments_strings (prg : list string) : string :=
  let todo := join (str1 newline) prg in
  match strip_loop (S (String.length todo)) todo "" with
  | Some done => done
  | None => ""
  end.

(** [strip(text)] of the specification: the stripper as [extract_version]
    calls it. *)
Definition strip (text : string) : string :=
  remove_comments_strings (split newline text).

(** The state after [n] iterations of the loop that all went on. *)
Fixpoint strip_iter (n : nat) (todo done : string) : option (string * string) :=
  match n with
  | O => Some (todo, done)
  | S n' =>
      match strip_step todo done with
      | Continue todo' done' => strip_iter n' todo' done'
      | Break _ => None
      end
  end.

(** ** Outcomes of a call: a value, or an exception that propagates *)

Inductive exn :=
  ParseException | IndexError | AssertionError | ValueError | SolcxError.

Inductive outcome (A : Type) :=
| Returned (a : A)
| Raised (e : exn).
Arguments Returned {A} a.
Arguments Raised {A} e.

Definition bind {A B : Type} (m : outcome A) (k : A -> outcome B) : outcome B :=
  match m with
  | Returned a => k a
  | Raised e => Raised e
  end.

Notation "x <- m ;; k" := (bind m (fun x => k))
  (at level 61, m at next level, right associativity).

(** [l[i]] on a Python list. *)
Definition getitem (l : list string) (i : nat) : outcome string :=
  match nth_error l i with
  | Some x => Returned x
  | None => Raised IndexError
  end.

(** ** The pyparsing elements that [parse_pragma] uses *)

Module Pyparsing.

(** A parser element takes the flag [skip] (leading whitespace is skipped;
    [Combine] turns it off in what it contains) and the text from the
    current position on, and gives the tokens and the text left. *)
Definition ParserElement := bool -> string -> option (list string * string).

(** The default whitespace characters: space, newline, tab, carriage
    return. *)
Definition is_white (c : ascii) : bool :=
  Ascii.eqb c " " || Ascii.eqb c newline || Ascii.eqb c tab
  || Ascii.eqb c "013".

Definition preParse (skip : bool) (s : string) : string :=
  if skip then snd (span is_white s) else s.

Fixpoint mem (c : ascii) (chars : string) : bool :=
  match chars with
  | EmptyString => false
  | String a chars' => Ascii.eqb c a || mem c chars'
  end.

(** [Word(chars)]: one or more characters of [chars]. *)
Definition Word (chars : string) : ParserElement := fun skip s =>
  match span (fun c => mem c chars) (preParse skip s) with
  | (EmptyString, _) => None
  | (w, rest) => Some ([w], rest)
  end.

(** [Regex(p)], with [re_match] the match of [p] at the start of a text:
    the matched text and the text left. *)
Definition Regex (re_match : string -> option (string * string))
  : ParserElement := fun skip s =>
  match re_match (preParse skip s) with
  | Some (m, rest) => Some ([m], rest)
  | None => None
  end.

(** [a + b] *)
Definition And (a b : ParserElement) : ParserElement := fun skip s =>
  match a skip s with
  | None => None
  | Some (ta, s1) =>
      match b skip s1 with
      | None => None
      | Some (tb, s2) => Some ((ta ++ tb)%list, s2)
      end
  end.

(** [a | b] *)
Definition MatchFirst (a b : ParserElement) : ParserElement := fun skip s =>
  match a skip s with
  | Some r => Some r
  | None => b skip s
  end.

Definition Optional (a : ParserElement) : ParserElement := fun skip s =>
  match a skip s with
  | Some r => Some r
  | None => Some ([], s)
  end.

(** [Combine(a)]: the tokens of [a], matched with no whitespace between
    them, joined into one. *)
Definition Combine (a : ParserElement) : ParserElement := fun skip s =>
  match a false (preParse skip s) with
  | Some (ts, rest) => Some ([String.concat "" ts], rest)
  | None => None
  end.

Fixpoint spaces (n : nat) : string :=
  match n with
  | O => EmptyString
  | S n' => String " " (spaces n')
  end.

(** [s.expandtabs()], from column [col]. *)
Fixpoint expandtabs (col : nat) (s : string) : string :=
  match s with
  | EmptyString => EmptyString
  | String c s' =>
      if Ascii.eqb c tab then
        let incr := 8 - col mod 8 in
        spaces incr ++ expandtabs (col + incr) s'
      else if Ascii.eqb c newline || Ascii.eqb c "013" then
        String c (expandtabs 0 s')
      else String c (expandtabs (S col) s')
  end.

(** [a.parseString(s)]: tabs are expanded first; text after the match is
    allowed. *)
Definition parseString (a : ParserElement) (s : string)
  : outcome (list string) :=
  match a true (expandtabs 0 s) with
  | Some (ts, _) => Returned ts
  | None => Raised ParseException
  end.

End Pyparsing.

(** ** The pragma parser: [parse_pragma] *)

(** [\s] of [re] on one character. *)
Definition re_space : ascii -> bool := isspace.

(** One or more digits [[0-9]+] at the start of [s]. *)
Definition re_digits (s : string) : option (string * string) :=
  match span isdigit s with
  | (EmptyString, _) => None
  | r => Some r
  end.

(** The character [c] at the start of [s]. *)
Definition re_char (c : ascii) (s : string) : option string :=
  match s with
  | String a s' => if Ascii.eqb a c then Some s' else None
  | EmptyString => None
  end.

(** The match of [\s*[0-9]+\s*\.\s*[0-9]+\s*(\.\s*[0-9]+)?] at the start of
    [s].  Each starred or plussed class is followed by a character outside the
    class or by the optional group, so the greedy match is the only one. *)
Definition version_re_match (s : string) : option (string * string) :=
  let (w0, s) := span re_space s in
  match re_digits s with
  | None => None
  | Some (major, s) =>
      let (w1, s) := span re_space s in
      match re_char "." s with
      | None => None
      | Some s =>
          let (w2, s) := span re_space s in
          match re_digits s with
          | None => None
          | Some (minor, s) =>
              let (w3, s) := span re_space s in
              let head := w0 ++ major ++ w1 ++ "." ++ w2 ++ minor ++ w3 in
              match re_char "." s with
              | None => Some (head, s)
              | Some s' =>
                  let (w4, s'') := span re_space s' in
                  match re_digits s'' with
                  | Some (patch, rest) =>
                      Some (head ++ "." ++ w4 ++ patch, rest)
                  | None => Some (head, s)
                  end
              end
          end
      end
  end.

Module Grammar.
Import Pyparsing.

Definition lt := Word "<".
Definition gtr := Word ">".
Definition eq := Word "=".
Definition carrot := Word "^".
Definition version := Regex version_re_match.
Definition inequality :=
  Optional
    (MatchFirst eq
       (MatchFirst (Combine (And gtr (Optional eq)))
                   (Combine (And lt (Optional eq))))).
Definition min_version := And (Optional (MatchFirst carrot inequality)) version.
Definition max_version := Optional (And inequality version).
Definition pragma :=
  And (And (And (Word "pragma") (Word "solidity")) min_version)
      (Optional max_version).

End Grammar.

(** The dictionary that [parse_pragma] returns; [None] is Python's [None]. *)
Record pragma_dict := {
  min_carrot : string;
  min_inequality : string;
  min_version : string;
  max_inequality : option string;
  max_version : option string
}.

Definition in_list (x : string) (l : list string) : bool :=
  existsb (String.eqb x) l.

Definition parse_pragma (solidity_code : string) : outcome pragma_dict :=
  result <- Pyparsing.parseString Grammar.pragma solidity_code ;;
  r2 <- getitem result 2 ;;
  let min_inequality := if in_list r2 [">"; "<"; ">="; "<="; "="] then r2 else "" in
  let min_carrot := if String.eqb r2 "^" then r2 else "" in
  min_version <-
    (if negb (String.eqb min_carrot "") || negb (String.eqb min_inequality "")
     then getitem result 3 else Returned r2) ;;
  max_inequality <-
    (if Nat.ltb 4 (List.length result)
     then r <- getitem result 4 ;; Returned (Some r) else Returned None) ;;
  max_version <-
    (if Nat.ltb 5 (List.length result)
     then r <- getitem result 5 ;; Returned (Some r) else Returned None) ;;
  Returned {| min_carrot := min_carrot;
              min_inequality := min_inequality;
              min_version := min_version;
              max_inequality := max_inequality;
              max_version := max_version |}.

(** Some character of the text is a digit. *)
Fixpoint has_digit (s : string) : bool :=
  match s with
  | EmptyString => false
  | String c s' => isdigit c || has_digit s'
  end.

(** The tokens of a match of [Grammar.pragma]: the two words, at most one
    token before the first version, and after it nothing or at most one
    token and a second version. *)
Inductive pragma_tokens : list string -> Prop :=
| tokens_min (w1 w2 : string) (pre : list string) (ver : string) :
    List.length pre <= 1 -> has_digit ver = true ->
    pragma_tokens (w1 :: w2 :: pre ++ [ver])
| tokens_min_max (w1 w2 : string) (pre : list string) (ver : string)
    (pre2 : list string) (ver2 : string) :
    List.length pre <= 1 -> has_digit ver = true ->
    List.length pre2 <= 1 -> has_digit ver2 = true ->
    pragma_tokens (w1 :: w2 :: pre ++ ver :: pre2 ++ [ver2]).

(** ** Versions of the [semantic_version] library *)

Record Version := {
  major : N;
  minor : N;
  patch : N;
  prerelease : list string;
  build : list string
}.

Definition decimal (n : N) : string := NilZero.string_of_uint (N.to_uint n).

(** [str(v)] *)
Definition Version_str (v : Version) : string :=
  decimal (major v) ++ "." ++ decimal (minor v) ++ "." ++ decimal (patch v)
  ++ match prerelease v with
     | [] => ""
     | p => "-" ++ join "." p
     end
  ++ match build v with
     | [] => ""
     | b => "+" ++ join "." b
     end.

(** ** Calls that [extract_version] and [extract_binary] make, in order *)

Inductive call :=
| Call_remove_comments_strings
| Call_parse_pragma (line : string)
| Call_SimpleSpec (spec : string)
| Loop_all_versions
| Call_solc_exists (version : string).

(** A computation gives the calls it made and its outcome. *)
Definition traced (A : Type) : Type := list call * outcome A.

Definition ret {A : Type} (a : A) : traced A := ([], Returned a).
Definition raise {A : Type} (e : exn) : traced A := ([], Raised e).
Definition calling {A : Type} (c : call) (r : outcome A) : traced A := ([c], r).

Definition bindT {A B : Type} (m : traced A) (k : A -> traced B) : traced B :=
  match m with
  | (t, Returned a) => let (t', r) := k a in ((t ++ t')%list, r)
  | (t, Raised e) => (t, Raised e)
  end.

Notation "x <~ m ;; k" := (bindT m (fun x => k))
  (at level 61, m at next level, right associativity).

(** ** The version resolver: [extract_version] and [extract_binary] *)

(** The [for line in file.split(...)] loop: the first line that contains
    [pragma solidity], right-stripped. *)
Fixpoint find_version_line (lines : list string) : option string :=
  match lines with
  | [] => None
  | line :: rest =>
      if negb (contains "pragma solidity" line) then find_version_line rest
      else Some (rstrip line)
  end.

(** [s.replace(" ", "").replace("\t", "")] *)
Definition remove_blanks (s : string) : string :=
  remove_char tab (remove_char " " s).

(** Truth value of an optional string: [None] and the empty string are
    false. *)
Definition truthy (s : option string) : bool :=
  match s with
  | Some (String _ _) => true
  | _ => false
  end.

(** How an f-string shows an optional string. *)
Definition format (s : option string) : string :=
  match s with
  | Some s => s
  | None => "None"
  end.

(** The constraint expression built from the dictionary. *)
Definition version_spec (pragma_dict : pragma_dict) : string :=
  let min_inequality := min_inequality pragma_dict in
  let max_inequality := max_inequality pragma_dict in
  let min_version := remove_blanks (min_version pragma_dict) in
  let max_version := option_map remove_blanks (max_version pragma_dict) in
  if truthy max_version
  then min_inequality ++ min_version ++ "," ++ format max_inequality
       ++ format max_version
  else min_version.

(** The version is excluded when its text contains [0.5.17]. *)
Definition excluded (v : Version) : bool := contains "0.5.17" (Version_str v).

(** The [for version in all_versions] loop.  An entry of the registry is
    modelled by the version that [semver.Version(str(version))] makes of it.
    Leaving the loop without a [return] gives [None]. *)
Fixpoint resolve (version_constraint : Version -> bool)
  (all_versions : list Version) : option string :=
  match all_versions with
  | [] => None
  | version :: rest =>
      let semver_version := version in
      if version_constraint semver_version then
        if contains "0.5.17" (Version_str semver_version) then
          resolve version_constraint rest
        else Some (Version_str semver_version)
      else resolve version_constraint rest
  end.

(** [version_line[version_line.find(p):]]; [find] gives -1 when [p] does not
    occur, and the slice is then the last character. *)
Definition slice_from_find (p s : string) : string :=
  match find p s with
  | Some i => drop i s
  | None => drop (String.length s - 1) s
  end.

Section Resolver.

(** [semver.SimpleSpec(spec)]: the membership test of the constraint, or
    [ValueError] for a text that is no constraint. *)
Variable SimpleSpec : string -> outcome (Version -> bool).

(** The registry, computed once when the module is loaded. *)
Variable all_versions : list Version.

(** [solcx]: install the compiler of the given tag, select it, and give
    the path of its executable. *)
Variable solcx_executable : string -> outcome string.

Definition extract_version (file : option string) : traced (option string) :=
  match file with
  | None => ret None
  | Some file =>
      file <~ calling Call_remove_comments_strings
                (Returned (remove_comments_strings (split newline file))) ;;
      match find_version_line (split newline file) with
      | None => ret None
      | Some version_line =>
          if negb (contains "pragma solidity" version_line)
          then raise AssertionError
          else
            match last version_line with
            | None => raise IndexError
            | Some c =>
                let version_line :=
                  if Ascii.eqb c ";" then init version_line
                  else version_line in
                let version_line := slice_from_find "pragma" version_line in
                pragma_dict <~ calling (Call_parse_pragma version_line)
                                 (parse_pragma version_line) ;;
                let version_spec := version_spec pragma_dict in
                version_constraint <~ calling (Call_SimpleSpec version_spec)
                                        (SimpleSpec version_spec) ;;
                calling Loop_all_versions
                  (Returned (resolve version_constraint all_versions))
            end
      end
  end.

Definition solc_exists (version : string) : outcome string :=
  solcx_executable ("v" ++ version).

(** [a or b] on an optional string. *)
Definition py_or (a : option string) (b : string) : string :=
  match a with
  | Some (String c s) => String c s
  | _ => b
  end.

(** [extract_binary], on the text read from the file and the value of the
    environment variable [SOLC]. *)
Definition extract_binary (file_data : string) (environ_SOLC : option string)
  : traced (string * option string) :=
  version <~ extract_version (Some file_data) ;;
  match version with
  | None => ret (py_or environ_SOLC "solc", version)
  | Some v =>
      binary <~ calling (Call_solc_exists v) (solc_exists v) ;;
      ret (binary, version)
  end.

End Resolver.

(** A comparator for the examples, in place of [semver.SimpleSpec]: the empty
    text is refused, and any other expression accepts the one version whose
    text it is. *)
Definition exact_spec (spec : string) : outcome (Version -> bool) :=
  match spec with
  | EmptyString => Raised ValueError
  | _ => Returned (fun v => String.eqb (Version_str v) spec)
  end.

Definition release (a b c : N) : Version :=
  {| major := a; minor := b; patch := c; prerelease := []; build := [] |}.

Definition caret_range_dict : pragma_dict :=
  {| min_carrot := "^"; min_inequality := ""; min_version := "0.4.0";
     max_inequality := Some "<"; max_version := Some "0.6.0" |}.

Definition no_pragma_source : string :=
  "// pragma solidity ^0.5.0;" ++ str1 newline ++ "contract C {}".

(** ** The registry as [solcx] gives it

    In [resolve] an entry of the registry is the version that
    [semver.Version(str(version))] makes of it.  Here an entry is its text
    [str(version)], and the conversion is part of the loop: it raises
    [ValueError] on a text that is no full semantic version, when the loop
    reaches that entry. *)

Section RegistryEntries.

Variable SimpleSpec : string -> outcome (Version -> bool).

(** [semver.Version(text)] *)
Variable semver_Version : string -> outcome Version.

(** The [for version in all_versions] loop with its conversion. *)
Fixpoint resolve_entries (version_constraint : Version -> bool)
  (all_versions : list string) : outcome (option string) :=
  match all_versions with
  | [] => Returned None
  | version :: rest =>
      semver_version <- semver_Version version ;;
      if version_constraint semver_version then
        if contains "0.5.17" (Version_str semver_version) then
          resolve_entries version_constraint rest
        else Returned (Some (Version_str semver_version))
      else resolve_entries version_constraint rest
  end.

Variable all_versions : list string.

(** [extract_version] with the loop that converts the entries. *)
Definition extract_version_entries (file : option string)
  : traced (option string) :=
  match file with
  | None => ret None
  | Some file =>
      file <~ calling Call_remove_comments_strings
                (Returned (remove_comments_strings (split newline file))) ;;
      match find_version_line (split newline file) with
      | None => ret None
      | Some version_line =>
          if negb (contains "pragma solidity" version_line)
          then raise AssertionError
          else
            match last version_line with
            | None => raise IndexError
            | Some c =>
                let version_line :=
                  if Ascii.eqb c ";" then init version_line
                  else version_line in
                let version_line := slice_from_find "pragma" version_line in
                pragma_dict <~ calling (Call_parse_pragma version_line)
                                 (parse_pragma version_line) ;;
                let version_spec := version_spec pragma_dict in
                version_constraint <~ calling (Call_SimpleSpec version_spec)
                                        (SimpleSpec version_spec) ;;
                calling Loop_all_versions
                  (resolve_entries version_constraint all_versions)
            end
      end
  end.

End RegistryEntries.

(** A conversion for the examples, in place of [semver.Version]: a text of
    three decimal numbers with dots between them is that release, and any
    other text is refused. *)
Definition release_of_text (text : string) : outcome Version :=
  match split "." text with
  | [a; b; c] =>
      match NilZero.uint_of_string a, NilZero.uint_of_string b,
            NilZero.uint_of_string c with
      | Some x, Some y, Some z =>
          Returned (release (N.of_uint x) (N.of_uint y) (N.of_uint z))
      | _, _, _ => Raised ValueError
      end
  | _ => Raised ValueError
  end.

(** ** Hexadecimal text and addresses: [safe_decode], [get_random_address],
    [get_indexed_address] *)

Module Hex.

(** The value of a hexadecimal digit, in either case. *)
Definition digit_value (c : ascii) : option N :=
  let n := N_of_ascii c in
  if (48 <=? n)%N && (n <=? 57)%N then Some (n - 48)%N
  else if (97 <=? n)%N && (n <=? 102)%N then Some (n - 87)%N
  else if (65 <=? n)%N && (n <=? 70)%N then Some (n - 55)%N
  else None.

(** ASCII whitespace: tab to carriage return, and the space. *)
Definition Py_ISSPACE (c : ascii) : bool :=
  let n := N_of_ascii c in
  ((9 <=? n)%N && (n <=? 13)%N) || (n =? 32)%N.

(** The low eight bits of [n], as [(unsigned char) n]. *)
Definition byte_of_N (n : N) : Byte.byte :=
  Byte.of_bits
    (N.testbit n 0, (N.testbit n 1, (N.testbit n 2, (N.testbit n 3,
    (N.testbit n 4, (N.testbit n 5, (N.testbit n 6, N.testbit n 7))))))).

(** [bytes.fromhex(s)]: whitespace is skipped before a byte, and a byte is
    two hexadecimal digits next to each other; anything else is a
    [ValueError]. *)
Fixpoint fromhex (s : string) : outcome (list Byte.byte) :=
  match s with
  | EmptyString => Returned []
  | String c s1 =>
      if Py_ISSPACE c then fromhex s1
      else
        match digit_value c with
        | None => Raised ValueError
        | Some top =>
            match s1 with
            | EmptyString => Raised ValueError
            | String d s2 =>
                match digit_value d with
                | None => Raised ValueError
                | Some bot =>
                    bs <- fromhex s2 ;;
                    Returned (byte_of_N (16 * top + bot) :: bs)
                end
            end
        end
  end.

(** The lower-case hexadecimal digit of a value below 16. *)
Definition hex_char (n : N) : ascii :=
  if (n <? 10)%N then ascii_of_N (48 + n) else ascii_of_N (87 + n).

(** [binascii.b2a_hex(data).decode("UTF-8")]: two lower-case digits for
    each byte. *)
Fixpoint b2a_hex (data : list Byte.byte) : string :=
  match data with
  | [] => EmptyString
  | b :: rest =>
      String (hex_char (Byte.to_N b / 16))
        (String (hex_char (Byte.to_N b mod 16)) (b2a_hex rest))
  end.

(** [hex(i)[2:]] for [i >= 0]: the digits of [i], with no leading zero. *)
Definition hex_digits (n : N) : string :=
  HexadecimalString.NilZero.string_of_uint (N.to_hex_uint n).

(** [hex(i)] on an integer. *)
Definition py_hex (i : Z) : string :=
  match i with
  | Zneg p => "-0x" ++ hex_digits (Npos p)
  | _ => "0x" ++ hex_digits (Z.to_N i)
  end.

(** [s * n] *)
Fixpoint repeat_string (s : string) (n : nat) : string :=
  match n with
  | O => EmptyString
  | S n' => s ++ repeat_string s n'
  end.

End Hex.

Definition safe_decode (hex_encoded_string : string)
  : outcome (list Byte.byte) :=
  if startswith "0x" hex_encoded_string
  then Hex.fromhex (drop 2 hex_encoded_string)
  else Hex.fromhex hex_encoded_string.

(** [get_random_address], on the source of random bytes [os.urandom]. *)
Definition get_random_address (urandom : nat -> list Byte.byte) : string :=
  Hex.b2a_hex (urandom 20).

Definition get_indexed_address (index : Z) : string :=
  "0x" ++ Hex.repeat_string (drop 2 (Hex.py_hex index)) 40.

(** ** The compiler invoker: [get_solc_json] *)

Module Solc.

(** A value that [json.load] gives; the members of an object are the items
    of the dictionary, in its order. *)
#[warnings="-register-all"]
Inductive json :=
| JNull
| JBool (b : bool)
| JNumber (text : string)
| JString (s : string)
| JArray (items : list json)
| JObject (members : list (string * json)).

Definition dict := list (string * json).

(** [d.get(k)] *)
Fixpoint dict_get (d : dict) (k : string) : option json :=
  match d with
  | [] => None
  | (k', v) :: rest => if String.eqb k' k then Some v else dict_get rest k
  end.

(** [d[k] = v]: the value of an existing key is replaced in its place, a new
    key goes to the end. *)
Fixpoint dict_set (d : dict) (k : string) (v : json) : dict :=
  match d with
  | [] => [(k, v)]
  | (k', v') :: rest =>
      if String.eqb k' k then (k, v) :: rest
      else (k', v') :: dict_set rest k v
  end.

(** [d.update(other)] *)
Definition dict_update (d other : dict) : dict :=
  fold_left (fun acc kv => dict_set acc (fst kv) (snd kv)) other d.

Inductive error :=
| CompilerError (message : string)
| FileNotFoundError
| JSONDecodeError
| UnicodeDecodeError
| KeyError (key : string)
| TypeError
| AttributeError
| OSError.

Inductive result (A : Type) :=
| Ok (a : A)
| Err (e : error).
Arguments Ok {A} a.
Arguments Err {A} e.

Definition bind {A B : Type} (m : result A) (k : A -> result B) : result B :=
  match m with
  | Ok a => k a
  | Err e => Err e
  end.

Notation "'let*' x ':=' m 'in' k" := (bind m (fun x => k))
  (at level 10, x name, m at level 100, k at level 200).

(** [v == s] for a text [s]. *)
Definition is_string (s : string) (v : json) : bool :=
  match v with
  | JString s' => String.eqb s' s
  | _ => false
  end.

(** [k in v]: a key of a dictionary, an item of a list, a part of a text. *)
Definition py_in (k : string) (v : json) : result bool :=
  match v with
  | JObject d =>
      Ok (match dict_get d k with Some _ => true | None => false end)
  | JArray items => Ok (existsb (is_string k) items)
  | JString s => Ok (contains k s)
  | _ => Err TypeError
  end.

(** [v.update(other)]: only a dictionary has the method. *)
Definition py_update (v : json) (other : dict) : result json :=
  match v with
  | JObject d => Ok (JObject (dict_update d other))
  | _ => Err AttributeError
  end.

(** [v[k]] for a text [k]. *)
Definition subscript (v : json) (k : string) : result json :=
  match v with
  | JObject d =>
      match dict_get d k with
      | Some x => Ok x
      | None => Err (KeyError k)
      end
  | _ => Err TypeError
  end.

(** The items that [for x in v] goes through: the items of a list, the keys
    of a dictionary, the characters of a text. *)
Definition iterate (v : json) : result (list json) :=
  match v with
  | JArray items => Ok items
  | JObject d => Ok (map (fun kv => JString (fst kv)) d)
  | JString s => Ok (map (fun c => JString (str1 c)) (list_ascii_of_string s))
  | _ => Err TypeError
  end.

(** [s.split()]: the words between runs of whitespace. *)
Fixpoint split_ws (s : string) : list string :=
  match s with
  | EmptyString => []
  | String c s' =>
      if isspace c then split_ws s'
      else
        match s' with
        | EmptyString => [str1 c]
        | String d _ =>
            if isspace d then str1 c :: split_ws s'
            else
              match split_ws s' with
              | w :: ws => String c w :: ws
              | [] => [str1 c]
              end
        end
  end.

(** The command line. *)
Definition command (solc_binary : string) (solc_args : option string)
  : list string :=
  match solc_args with
  | None => [solc_binary; "--standard-json"; "--allow-paths"; ".,/"]
  | Some a => ([solc_binary; "--standard-json"] ++ split_ws a)%list
  end.

Definition optimizer_disabled : dict :=
  [("optimizer", JObject [("enabled", JBool false)])].

Definition output_selection : dict :=
  [("outputSelection",
    JObject
      [("*",
        JObject
          [("", JArray [JString "ast"]);
           ("*", JArray [JString "metadata"; JString "evm.bytecode";
                         JString "evm.deployedBytecode";
                         JString "evm.methodIdentifiers"])])])].

(** The settings of the request, from the settings that were loaded (the
    empty dictionary when no file is given). *)
Definition build_settings (settings : json) : result json :=
  let* missing := (let* present := py_in "optimizer" settings in
                   Ok (negb present)) in
  let* settings := (if missing then py_update settings optimizer_disabled
                    else Ok settings) in
  py_update settings output_selection.

(** The request document, before [json.dumps]. *)
Definition request (file : string) (settings : json) : json :=
  JObject
    [("language", JString "Solidity");
     ("sources", JObject [(file, JObject [("urls", JArray [JString file])])]);
     ("settings", settings)].

Definition not_found_message : string :=
  "Compiler not found. Make sure that solc is installed and in PATH, or set the SOLC environment variable.".

Definition fatal_message (formatted : string) : string :=
  "Solc experienced a fatal error." ++ String newline (String newline formatted).

(** What starting the compiler and talking to it gives. *)
Inductive popen_result :=
| NotFound
| Failed (e : error)
| Completed (stdout stderr : list Byte.byte).

(** An entry of the log: the output that was no JSON, and the error
    stream. *)
Inductive log_entry :=
| LogDecodeError (out : string) (stderr : list Byte.byte).

Section Invoker.

(** [args.solc_args] *)
Variable solc_args : option string.

(** Reading the settings file: [open] and [json.load]. *)
Variable load_settings : string -> result json.

(** [Popen(cmd, ...)] and [communicate] with the request. *)
Variable Popen_communicate : list string -> json -> popen_result.

(** [stdout.decode("UTF-8")]; [None] is a [UnicodeDecodeError]. *)
Variable decode : list Byte.byte -> option string.

(** [json.loads(out)]; [None] is a [JSONDecodeError]. *)
Variable json_loads : string -> option json.

(** [str(v)] for a value that is no text, as the format [%s] shows it. *)
Variable py_repr : json -> string.

Definition format_s (v : json) : string :=
  match v with
  | JString s => s
  | _ => py_repr v
  end.

(** The loop over the errors of the response. *)
Fixpoint scan_errors (errors : list json) : result unit :=
  match errors with
  | [] => Ok tt
  | error :: rest =>
      let* severity := subscript error "severity" in
      if is_string "error" severity then
        let* formatted := subscript error "formattedMessage" in
        Err (CompilerError (fatal_message (format_s formatted)))
      else scan_errors rest
  end.

(** [result.get("errors", [])] and the loop over it. *)
Definition check_errors (response : json) : result json :=
  let* errors :=
    match response with
    | JObject d =>
        Ok (match dict_get d "errors" with
            | Some v => v
            | None => JArray []
            end)
    | _ => Err AttributeError
    end in
  let* items := iterate errors in
  let* _ := scan_errors items in
  Ok response.

Definition load (solc_settings_json : option string) : result json :=
  match solc_settings_json with
  | Some (String c path) => load_settings (String c path)
  | _ => Ok (JObject [])
  end.

(** [get_solc_json]: what was logged, and the outcome. *)
Definition get_solc_json (file solc_binary : string)
  (solc_settings_json : option string) : list log_entry * result json :=
  let cmd := command solc_binary solc_args in
  match (let* settings := load solc_settings_json in
         build_settings settings) with
  | Err e => ([], Err e)
  | Ok settings =>
      match Popen_communicate cmd (request file settings) with
      | NotFound => ([], Err (CompilerError not_found_message))
      | Failed e => ([], Err e)
      | Completed stdout stderr =>
          match decode stdout with
          | None => ([], Err UnicodeDecodeError)
          | Some out =>
              match json_loads out with
              | None => ([LogDecodeError out stderr], Err JSONDecodeError)
              | Some response => ([], check_errors response)
              end
          end
      end
  end.

End Invoker.

End Solc.

(** * Vocabulary of the properties *)

(** A character is a digit or one of the lower-case letters a to f. *)
Definition lower_hex (c : ascii) : bool :=
  let n := N_of_ascii c in
  ((48 <=? n)%N && (n <=? 57)%N) || ((97 <=? n)%N && (n <=? 102)%N).

(** Every character of [s] satisfies [f]. *)
Fixpoint all_chars (f : ascii -> bool) (s : string) : bool :=
  match s with
  | EmptyString => true
  | String c s' => f c && all_chars f s'
  end.

(** A character is a hexadecimal digit, in either case. *)
Definition is_hex (c : ascii) : bool :=
  match Hex.digit_value c with
  | Some _ => true
  | None => false
  end.

(** The number of characters of [s] that satisfy [f]. *)
Fixpoint count_chars (f : ascii -> bool) (s : string) : nat :=
  match s with
  | EmptyString => O
  | String c s' => (if f c then 1 else 0) + count_chars f s'
  end.



(** An entry of the errors is harmless when it is a dictionary whose
    severity is there and is not [error]; it is fatal when its severity is
    [error]. *)
Definition harmless (entry : Solc.json) : bool :=
  match Solc.subscript entry "severity" with
  | Solc.Ok severity => negb (Solc.is_string "error" severity)
  | Solc.Err _ => false
  end.

Definition fatal (entry : Solc.json) : bool :=
  match Solc.subscript entry "severity" with
  | Solc.Ok severity => Solc.is_string "error" severity
  | Solc.Err _ => false
  end.

(** The errors of a response: the list under [errors], and no errors when
    the key is missing. *)
Definition errors_of (response : Solc.json) : option (list Solc.json) :=
  match response with
  | Solc.JObject d =>
      match Solc.dict_get d "errors" with
      | Some (Solc.JArray entries) => Some entries
      | Some _ => None
      | None => Some []
      end
  | _ => None
  end.

(** A response of the compiler with a warning and two errors. *)
Definition sample_response : Solc.json :=
  Solc.JObject
    [("errors",
      Solc.JArray
        [Solc.JObject [("severity", Solc.JString "warning");
                       ("formattedMessage", Solc.JString "unused variable")];
         Solc.JObject [("severity", Solc.JString "error");
                       ("formattedMessage", Solc.JString "parse error")];
         Solc.JObject [("severity", Solc.JString "error");
                       ("formattedMessage", Solc.JString "type error")]]);
     ("contracts", Solc.JObject [])].

(** The first character of [s], when there is one, does not satisfy [f]. *)
Definition head_not (f : ascii -> bool) (s : string) : Prop :=
  match s with
  | EmptyString => True
  | String c _ => f c = false
  end.

(** A number as the grammar reads it: one decimal digit or more. *)
Definition digits (s : string) : Prop :=
  s <> "" /\ all_chars isdigit s = true.

(** A version of three numbers. *)
Definition version3 (a b c : string) : string := a ++ "." ++ b ++ "." ++ c.

(** A character that [expandtabs] copies and counts as one column. *)
Definition plain (c : ascii) : bool :=
  negb (Ascii.eqb c tab || Ascii.eqb c newline || Ascii.eqb c "013").

(** The tokens that the prefix of a version gives: none when there is no
    prefix. *)
Definition op_tokens (op : string) : list string :=
  match op with
  | EmptyString => []
  | _ => [op]
  end.

(** A character that is part of no trigger of the stripper. *)
Definition quiet (c : ascii) : bool :=
  negb (Ascii.eqb c "/" || Ascii.eqb c dquote || Ascii.eqb c squote).

(** A character that is part of no trigger and ends no line. *)
Definition inert (c : ascii) : bool :=
  quiet c && negb (Ascii.eqb c newline).

(** An entry that the loop passes over: it converts, and the version is not
    in the constraint or is excluded. *)
Definition passed (semver_Version : string -> outcome Version)
  (version_constraint : Version -> bool) (version : string) : Prop :=
  exists v, semver_Version version = Returned v /\
            (version_constraint v = false \/
             contains "0.5.17" (Version_str v) = true).

(** A [solcx] that has every compiler: the path of the executable is made
    from the tag. *)
Definition solcx_sample (tag : string) : outcome string :=
  Returned ("/solcx/solc-" ++ tag).

(** * Examples *)

Example strip_ex1 :
  remove_comments_strings ["a // b"; "c /* d"; "e */ f 'g' h"] =
  "a " ++ str1 newline ++ "c   f  h".
Proof. reflexivity. Qed.

Example parse_ex1 :
  parse_pragma "pragma solidity ^0.5.0;" =
  Returned {| min_carrot := "^"; min_inequality := ""; min_version := "0.5.0";
              max_inequality := None; max_version := None |}.
Proof. reflexivity. Qed.

Example parse_ex2 :
  parse_pragma "pragma solidity 0.4 . 1  >= 0.6" =
  Returned {| min_carrot := ""; min_inequality := ""; min_version := "0.4 . 1";
              max_inequality := Some "0.6"; max_version := None |}.
Proof. reflexivity. Qed.

Example extract_ex1 :
  extract_version exact_spec [release 0 7 6; release 0 8 0; release 0 8 1]
    (Some ("pragma solidity ^0.8.0;" ++ str1 newline ++ "// comment"
           ++ str1 newline ++ "contract C {}")) =
  ([Call_remove_comments_strings; Call_parse_pragma "pragma solidity ^0.8.0";
    Call_SimpleSpec "0.8.0"; Loop_all_versions], Returned (Some "0.8.0")).
Proof. reflexivity. Qed.

Example parse_ex3 :
  parse_pragma "pragma solidity >=0.4.0 0.6.0" =
  Returned {| min_carrot := ""; min_inequality := ">="; min_version := "0.4.0";
              max_inequality := Some "0.6.0"; max_version := None |}.
Proof. reflexivity. Qed.

Example resolve_ex1 :
  resolve (fun _ => true) [release 10 5 17; release 0 5 170; release 0 6 0] =
  Some "0.6.0".
Proof. reflexivity. Qed.

(** An entry of two numbers is refused when the loop reaches it. *)
Example extract_version_entries_ex1 :
  extract_version_entries exact_spec release_of_text ["0.8.19"; "0.4"]
    (Some "pragma solidity ^0.8.19;") =
  ([Call_remove_comments_strings; Call_parse_pragma "pragma solidity ^0.8.19";
    Call_SimpleSpec "0.8.19"; Loop_all_versions], Returned (Some "0.8.19")) /\
  extract_version_entries exact_spec release_of_text ["0.4"; "0.8.19"]
    (Some "pragma solidity ^0.8.19;") =
  ([Call_remove_comments_strings; Call_parse_pragma "pragma solidity ^0.8.19";
    Call_SimpleSpec "0.8.19"; Loop_all_versions], Raised ValueError).
Proof. split; reflexivity. Qed.

Example safe_decode_ex1 :
  safe_decode "0x00 ff 1A" = Returned [Byte.x00; Byte.xff; Byte.x1a].
Proof. reflexivity. Qed.

Example get_indexed_address_ex1 :
  get_indexed_address 16 =
  "0x" ++ Hex.repeat_string "10" 40.
Proof. reflexivity. Qed.

(** * Facts about the string primitives *)

Section StringFacts.

Lemma app_nil_r (s : string) : s ++ "" = s.
Proof. induction s as [|c s IH]; simpl; [reflexivity | now rewrite IH]. Qed.

Lemma app_assoc (a b c : string) : (a ++ b) ++ c = a ++ b ++ c.
Proof. induction a as [|x a IH]; simpl; [reflexivity | now rewrite IH]. Qed.

Lemma length_app (a b : string) :
  String.length (a ++ b) = String.length a + String.length b.
Proof. induction a as [|x a IH]; simpl; [reflexivity | now rewrite IH]. Qed.

Lemma length_drop (n : nat) (s : string) :
  String.length (drop n s) = String.length s - n.
Proof.
  revert s; induction n as [|n IH]; intros [|c s]; simpl; try lia.
  apply IH.
Qed.

Lemma length_take (n : nat) (s : string) :
  String.length (take n s) = Nat.min n (String.length s).
Proof.
  revert s; induction n as [|n IH]; intros [|c s]; simpl; try reflexivity.
  now rewrite IH.
Qed.

Lemma take_drop (n : nat) (s : string) : take n s ++ drop n s = s.
Proof.
  revert s; induction n as [|n IH]; intros [|c s]; simpl; try reflexivity.
  now rewrite IH.
Qed.

Lemma take_app_length (a b : string) : take (String.length a) (a ++ b) = a.
Proof. induction a as [|x a IH]; simpl; [now destruct b | now rewrite IH]. Qed.

Lemma drop_app_length (a b : string) : drop (String.length a) (a ++ b) = b.
Proof. induction a as [|x a IH]; simpl; [reflexivity | exact IH]. Qed.

Lemma drop_add (n m : nat) (s : string) : drop (n + m) s = drop m (drop n s).
Proof.
  revert s; induction n as [|n IH]; intros s; simpl; [reflexivity |].
  destruct s as [|c s]; [now destruct m | apply IH].
Qed.

Lemma startswith_iff (p s : string) :
  startswith p s = true <-> exists r, s = p ++ r.
Proof.
  revert s; induction p as [|a p IH]; intros s; simpl.
  - split; [intros _; now exists s | reflexivity].
  - destruct s as [|b s].
    + split; [discriminate | intros [r Hr]; discriminate].
    + rewrite andb_true_iff, Ascii.eqb_eq, IH. split.
      * intros [-> [r ->]]. now exists r.
      * intros [r Hr]. injection Hr as -> ->. split; [reflexivity | now exists r].
Qed.

Lemma startswith_app (p s : string) : startswith p (p ++ s) = true.
Proof. apply startswith_iff. now exists s. Qed.

(** [find] gives an occurrence, and the leftmost one. *)
Lemma find_some (p s : string) (i : nat) :
  find p s = Some i ->
  s = take i s ++ p ++ drop (i + String.length p) s.
Proof.
  revert i; induction s as [|c s IH]; intros i; simpl.
  - destruct (startswith p "") eqn:E; [|discriminate].
    intros [= <-]. apply startswith_iff in E as [r Hr]. simpl.
    destruct p; [reflexivity | discriminate].
  - destruct (startswith p (String c s)) eqn:E.
    + intros [= <-]. apply startswith_iff in E as [r Hr]. simpl.
      rewrite Hr at 2. rewrite drop_app_length. exact Hr.
    + destruct (find p s) as [j|]; [|discriminate].
      intros [= <-]. simpl. f_equal. now apply IH.
Qed.

Lemma find_none (p s : string) :
  find p s = None -> forall a b, s <> a ++ p ++ b.
Proof.
  induction s as [|c s IH]; simpl.
  - destruct (startswith p "") eqn:E; [discriminate|].
    intros _ a b H. destruct a; [| discriminate].
    simpl in H. rewrite H, startswith_app in E. discriminate.
  - destruct (startswith p (String c s)) eqn:E; [discriminate|].
    destruct (find p s) eqn:F; [discriminate|].
    intros _ a b H. destruct a as [|x a]; simpl in H.
    + rewrite H, startswith_app in E. discriminate.
    + injection H as _ H. now apply (IH eq_refl a b).
Qed.

(** [p in s] says that [p] occurs in [s]. *)
Lemma contains_iff (p s : string) :
  contains p s = true <-> exists a b, s = a ++ p ++ b.
Proof.
  unfold contains. destruct (find p s) as [i|] eqn:F.
  - split; [intros _ | reflexivity].
    eexists _, _. exact (find_some _ _ _ F).
  - split; [discriminate | intros (a & b & H)].
    exfalso. exact (find_none _ _ F a b H).
Qed.

Lemma contains_cons (p : string) (c : ascii) (s : string) :
  contains p (String c s) = startswith p (String c s) || contains p s.
Proof.
  unfold contains. simpl.
  destruct (startswith p (String c s)); [reflexivity|].
  now destruct (find p s).
Qed.

Lemma contains_nil (p : string) : contains p "" = startswith p "".
Proof. unfold contains. simpl. now destruct (startswith p ""). Qed.

Lemma split_not_nil (c : ascii) (s : string) : split c s <> [].
Proof.
  destruct s as [|a s]; simpl; [discriminate|].
  destruct (Ascii.eqb a c); [discriminate|].
  now destruct (split c s).
Qed.

(** Splitting at a character and joining with it again gives the text. *)
Lemma join_split (c : ascii) (s : string) : join (str1 c) (split c s) = s.
Proof.
  induction s as [|a s IH]; [reflexivity|]. simpl.
  pose proof (split_not_nil c s) as Hne.
  destruct (split c s) as [|l ls]; [contradiction|].
  destruct (Ascii.eqb_spec a c) as [->|Hac].
  - change (join (str1 c) ("" :: l :: ls)) with (str1 c ++ join (str1 c) (l :: ls)).
    now rewrite IH.
  - destruct ls; simpl in *; now rewrite <- IH.
Qed.

End StringFacts.

(** Lengths of appended, taken and dropped texts, for [lia]. *)
Create Rewrite HintDb strlen.
#[global] Hint Rewrite length_app length_take length_drop : strlen.

Ltac strlen := autorewrite with strlen; simpl in *; lia.

(** * Facts about the lexical stripper *)

Section StripperFacts.

Lemma startswith_length (p s : string) :
  startswith p s = true -> String.length p <= String.length s.
Proof.
  intros H. apply startswith_iff in H as [r ->]. rewrite length_app. lia.
Qed.

Lemma VOID_START_match_length (s : string) (t : void_start) :
  VOID_START_match s = Some t -> void_len t <= String.length s.
Proof.
  unfold VOID_START_match.
  destruct (startswith "//" s) eqn:E1;
    [intros [= <-]; exact (startswith_length _ _ E1)|].
  destruct (startswith "/*" s) eqn:E2;
    [intros [= <-]; exact (startswith_length _ _ E2)|].
  destruct (startswith (str1 dquote) s) eqn:E3;
    [intros [= <-]; exact (startswith_length _ _ E3)|].
  destruct (startswith (str1 squote) s) eqn:E4;
    [intros [= <-]; exact (startswith_length _ _ E4)|].
  discriminate.
Qed.

(** A match of [VOID_START] lies inside the text. *)
Lemma VOID_START_search_bound (s : string) (i : nat) (t : void_start) :
  VOID_START_search s = Some (i, t) -> i + void_len t <= String.length s.
Proof.
  revert i; induction s as [|c s IH]; intros i; simpl.
  - discriminate.
  - destruct (VOID_START_match (String c s)) eqn:E.
    + intros [= <- <-]. exact (VOID_START_match_length _ _ E).
    + destruct (VOID_START_search s) as [[j u]|]; [|discriminate].
      intros [= <- <-]. specialize (IH j eq_refl). simpl; lia.
Qed.

Lemma void_len_pos (t : void_start) : 1 <= void_len t.
Proof. destruct t; simpl; lia. Qed.

(** No trigger occurs in the text exactly when the search finds nothing. *)
Lemma VOID_START_search_none (s : string) :
  VOID_START_search s = None <->
  contains "//" s = false /\ contains "/*" s = false /\
  contains (str1 dquote) s = false /\ contains (str1 squote) s = false.
Proof.
  induction s as [|c s IH].
  - simpl. unfold VOID_START_match, contains. simpl. intuition congruence.
  - rewrite !contains_cons, !orb_false_iff.
    cbn [VOID_START_search]. unfold VOID_START_match.
    destruct (startswith "//" (String c s));
      [split; [discriminate | intros ([[=] _] & _)]|].
    destruct (startswith "/*" (String c s));
      [split; [discriminate | intros (_ & [[=] _] & _)]|].
    destruct (startswith (str1 dquote) (String c s));
      [split; [discriminate | intros (_ & _ & [[=] _] & _)]|].
    destruct (startswith (str1 squote) (String c s));
      [split; [discriminate | intros (_ & _ & _ & [[=] _])]|].
    destruct (VOID_START_search s) as [[j u]|].
    + split; [discriminate|]. intros H.
      exfalso. destruct IH as [_ IH]. discriminate IH. tauto.
    + split; [intros _ | reflexivity]. destruct IH as [IH _].
      specialize (IH eq_refl). tauto.
Qed.

(** An iteration that goes on leaves a shorter [todo]. *)
Lemma strip_step_shrinks (todo done todo' done' : string) :
  strip_step todo done = Continue todo' done' ->
  String.length todo' < String.length todo.
Proof.
  unfold strip_step.
  destruct (VOID_START_search todo) as [[start t]|] eqn:E; [|discriminate].
  pose proof (VOID_START_search_bound _ _ _ E) as Hb.
  pose proof (void_len_pos t) as Hp.
  destruct t; unfold find_from.
  - destruct (find _ _); simpl; intros [= <- _]; strlen.
  - destruct (find _ _); simpl; intros [= <- _]; strlen.
  - destruct (DQUOTE_END_search _); [|discriminate].
    intros [= <- _]. strlen.
  - destruct (QUOTE_END_search _); [|discriminate].
    intros [= <- _]. strlen.
Qed.

(** The loop ends within [len(todo) + 1] iterations. *)
Lemma strip_loop_enough (fuel : nat) :
  forall todo done, String.length todo < fuel ->
  exists r, strip_loop fuel todo done = Some r.
Proof.
  induction fuel as [|fuel IH]; intros todo done Hlen; [lia|].
  simpl. destruct (strip_step todo done) as [r|todo' done'] eqn:E.
  - now exists r.
  - apply IH. apply strip_step_shrinks in E. lia.
Qed.

(** More iterations allowed do not change a result. *)
Lemma strip_loop_more (fuel : nat) :
  forall todo done r extra,
  strip_loop fuel todo done = Some r ->
  strip_loop (fuel + extra) todo done = Some r.
Proof.
  induction fuel as [|fuel IH]; intros todo done r extra; [discriminate|].
  simpl. destruct (strip_step todo done); [trivial | apply IH].
Qed.

Lemma strip_iter_loop (n : nat) :
  forall todo done todo' done' fuel,
  strip_iter n todo done = Some (todo', done') ->
  strip_loop (n + fuel) todo done = strip_loop fuel todo' done'.
Proof.
  induction n as [|n IH]; intros todo done todo' done' fuel; simpl.
  - now intros [= -> ->].
  - destruct (strip_step todo done); [discriminate | apply IH].
Qed.

Lemma strip_iter_length (n : nat) :
  forall todo done todo' done',
  strip_iter n todo done = Some (todo', done') ->
  String.length todo' + n <= String.length todo.
Proof.
  induction n as [|n IH]; intros todo done todo' done'; simpl.
  - intros [= -> ->]. lia.
  - destruct (strip_step todo done) as [|t1 d1] eqn:E; [discriminate|].
    intros H. apply IH in H. apply strip_step_shrinks in E. lia.
Qed.

(** What [remove_comments_strings] returns is the result of the loop. *)
Lemma remove_comments_strings_run (prg : list string) :
  let todo := join (str1 newline) prg in
  strip_loop (S (String.length todo)) todo "" =
  Some (remove_comments_strings prg).
Proof.
  intros todo. unfold remove_comments_strings. fold todo.
  destruct (strip_loop_enough (S (String.length todo)) todo "") as [r Hr];
    [lia|].
  now rewrite Hr.
Qed.

(** The result of the loop from any state that the scan of [text]
    reaches is what [remove_comments_strings] returns. *)
Lemma remove_comments_strings_from (text : string) (n : nat)
  (todo done r : string) (fuel : nat) :
  strip_iter n text "" = Some (todo, done) ->
  strip_loop fuel todo done = Some r ->
  remove_comments_strings (split newline text) = r.
Proof.
  intros Hit Hr.
  pose proof (remove_comments_strings_run (split newline text)) as Hrun.
  cbv zeta in Hrun. rewrite join_split in Hrun.
  pose proof (strip_iter_length _ _ _ _ _ Hit) as Hlen.
  destruct (strip_loop_enough (S (String.length text) - n) todo done) as [r' Hr'];
    [lia|].
  replace (S (String.length text)) with (n + (S (String.length text) - n))
    in Hrun by lia.
  rewrite (strip_iter_loop _ _ _ _ _ _ Hit), Hr' in Hrun.
  apply (strip_loop_more _ _ _ _ fuel) in Hr'.
  apply (strip_loop_more _ _ _ _ (S (String.length text) - n)) in Hr.
  rewrite Nat.add_comm, Hr in Hr'. congruence.
Qed.

End StripperFacts.

(** * Facts about the pragma parser *)

Section ParserFacts.
Import Pyparsing.

Lemma has_digit_app (a b : string) :
  has_digit (a ++ b) = has_digit a || has_digit b.
Proof.
  induction a as [|c a IH]; simpl; [reflexivity|].
  now rewrite IH, orb_assoc.
Qed.

Lemma re_digits_has_digit (s m r : string) :
  re_digits s = Some (m, r) -> has_digit m = true.
Proof.
  unfold re_digits. destruct s as [|c s]; simpl; [discriminate|].
  destruct (isdigit c) eqn:E; [|discriminate].
  destruct (span isdigit s) as [a b]. intros [= <- _]. simpl. now rewrite E.
Qed.

(** A match of the version pattern contains a digit. *)
Lemma version_re_match_has_digit (s tok rest : string) :
  version_re_match s = Some (tok, rest) -> has_digit tok = true.
Proof.
  unfold version_re_match.
  destruct (span re_space s) as [w0 s0].
  destruct (re_digits s0) as [[major s1]|] eqn:Emaj; [|discriminate].
  apply re_digits_has_digit in Emaj.
  destruct (span re_space s1) as [w1 s2].
  destruct (re_char "." s2) as [s2'|]; [|discriminate].
  destruct (span re_space s2') as [w2 s3].
  destruct (re_digits s3) as [[minor s4]|]; [|discriminate].
  destruct (span re_space s4) as [w3 s5].
  assert (Hhead : has_digit
            (w0 ++ major ++ w1 ++ "." ++ w2 ++ minor ++ w3) = true).
  { rewrite !has_digit_app, Emaj. now rewrite orb_true_r. }
  cbv zeta.
  destruct (re_char "." s5) as [s5'|]; [|now intros [= <- _]].
  destruct (span re_space s5') as [w4 s6].
  destruct (re_digits s6) as [[patch s7]|]; intros [= <- _];
    [rewrite has_digit_app; apply orb_true_iff; left; exact Hhead
    | exact Hhead].
Qed.

Lemma version_tokens (skip : bool) (s : string) ts r :
  Grammar.version skip s = Some (ts, r) ->
  exists ver, ts = [ver] /\ has_digit ver = true.
Proof.
  unfold Grammar.version, Regex.
  destruct (version_re_match (preParse skip s)) as [[m rest]|] eqn:E;
    [|discriminate].
  intros [= <- _]. exists m. split; [reflexivity|].
  exact (version_re_match_has_digit _ _ _ E).
Qed.

Lemma Word_tokens (chars : string) (skip : bool) (s : string) ts r :
  Word chars skip s = Some (ts, r) -> List.length ts = 1.
Proof.
  unfold Word. destruct (span _ (preParse skip s)) as [[|c w] rest];
    [discriminate | now intros [= <- _]].
Qed.

Lemma Combine_tokens (a : ParserElement) (skip : bool) (s : string) ts r :
  Combine a skip s = Some (ts, r) -> List.length ts = 1.
Proof.
  unfold Combine. destruct (a false (preParse skip s)) as [[t rest]|];
    [now intros [= <- _] | discriminate].
Qed.

Lemma Optional_inv (a : ParserElement) (skip : bool) (s : string) ts r :
  Optional a skip s = Some (ts, r) ->
  a skip s = Some (ts, r) \/ (ts = [] /\ r = s).
Proof.
  unfold Optional. destruct (a skip s) as [res|].
  - intros [= ->]. now left.
  - intros [= <- <-]. now right.
Qed.

Lemma MatchFirst_inv (a b : ParserElement) (skip : bool) (s : string) res :
  MatchFirst a b skip s = Some res ->
  a skip s = Some res \/ b skip s = Some res.
Proof.
  unfold MatchFirst. destruct (a skip s) as [res'|].
  - intros [= ->]. now left.
  - now right.
Qed.

Lemma And_inv (a b : ParserElement) (skip : bool) (s : string) ts r :
  And a b skip s = Some (ts, r) ->
  exists ta s1 tb,
    a skip s = Some (ta, s1) /\ b skip s1 = Some (tb, r) /\
    ts = (ta ++ tb)%list.
Proof.
  unfold And. destruct (a skip s) as [[ta s1]|]; [|discriminate].
  destruct (b skip s1) as [[tb s2]|] eqn:Eb; [|discriminate].
  intros [= <- <-]. now exists ta, s1, tb.
Qed.

Lemma inequality_tokens (skip : bool) (s : string) ts r :
  Grammar.inequality skip s = Some (ts, r) -> List.length ts <= 1.
Proof.
  unfold Grammar.inequality. intros H.
  apply Optional_inv in H as [H | [-> _]]; [|simpl; lia].
  apply MatchFirst_inv in H as [H | H].
  { apply Word_tokens in H. lia. }
  apply MatchFirst_inv in H as [H | H]; apply Combine_tokens in H; lia.
Qed.

Lemma prefix_tokens (skip : bool) (s : string) ts r :
  Optional (MatchFirst Grammar.carrot Grammar.inequality) skip s = Some (ts, r) ->
  List.length ts <= 1.
Proof.
  intros H. apply Optional_inv in H as [H | [-> _]]; [|simpl; lia].
  apply MatchFirst_inv in H as [H | H].
  - apply Word_tokens in H. lia.
  - now apply inequality_tokens in H.
Qed.

(** The shape of the token list of every line that the grammar accepts. *)
Lemma pragma_shape (skip : bool) (s : string) ts r :
  Grammar.pragma skip s = Some (ts, r) -> pragma_tokens ts.
Proof.
  unfold Grammar.pragma, Grammar.min_version, Grammar.max_version. intros H.
  apply And_inv in H as (t123 & s3 & suf & H123 & Hmax & ->).
  apply And_inv in H123 as (t12 & s2 & tmin & H12 & Hmin & ->).
  apply And_inv in H12 as (t1 & s1 & t2 & H1 & H2 & ->).
  apply And_inv in Hmin as (pre & s4 & tv & Hpre & Hver & ->).
  apply Word_tokens in H1. apply Word_tokens in H2.
  apply prefix_tokens in Hpre. apply version_tokens in Hver as (ver & -> & Hver).
  destruct t1 as [|w1 [|]]; try discriminate.
  destruct t2 as [|w2 [|]]; try discriminate.
  assert (Hmin : pragma_tokens ((([w1] ++ [w2]) ++ pre ++ [ver]) ++ [])).
  { rewrite List.app_nil_r. now apply tokens_min. }
  apply Optional_inv in Hmax as [Hmax | [-> _]]; [|exact Hmin].
  apply Optional_inv in Hmax as [Hmax | [-> _]]; [|exact Hmin].
  apply And_inv in Hmax as (pre2 & s5 & tv2 & Hpre2 & Hver2 & ->).
  apply inequality_tokens in Hpre2.
  apply version_tokens in Hver2 as (ver2 & -> & Hver2).
  simpl. rewrite <- List.app_assoc. simpl. now apply tokens_min_max.
Qed.

End ParserFacts.

(** * The lexical stripper: properties *)

(** C7.  A text in which none of the four triggers occurs (two slashes, a
    slash and a star, a single quote, a double quote) is returned as it is. *)
Theorem strip_identity_without_triggers :
  forall text : string,
    contains "//" text = false ->
    contains "/*" text = false ->
    contains (str1 squote) text = false ->
    contains (str1 dquote) text = false ->
    strip text = text.
Proof.
  intros text H1 H2 H3 H4.
  apply (remove_comments_strings_from text 0 text "" text 1); [reflexivity|].
  simpl. unfold strip_step.
  now rewrite (proj2 (VOID_START_search_none text) (conj H1 (conj H2 (conj H4 H3)))).
Qed.

Lemma strip_identity_without_triggers_witness :
  strip ("contract C { uint x = 1 / 2 * 3; }" ++ str1 newline ++ "/ * /") =
  "contract C { uint x = 1 / 2 * 3; }" ++ str1 newline ++ "/ * /".
Proof. apply strip_identity_without_triggers; reflexivity. Defined.

(** C3, as the code has it.  When the scan of a text reaches a block-comment
    opener after which no closer occurs, the stripper stops there: the output
    is what was copied so far, the text before the opener, and one space; the
    rest is discarded.  The space is appended before the closer is looked
    for. *)
Theorem unterminated_block_comment_keeps_space :
  forall (text : string) (n : nat) (todo done : string) (start : nat),
    strip_iter n text "" = Some (todo, done) ->
    VOID_START_search todo = Some (start, BlockComment) ->
    contains "*/" (drop (start + 2) todo) = false ->
    strip text = done ++ take start todo ++ " ".
Proof.
  intros text n todo done start Hit Hs Hc.
  apply (remove_comments_strings_from text n todo done _ 2 Hit).
  simpl. unfold strip_step at 1. rewrite Hs. unfold find_from. simpl void_len.
  unfold contains in Hc.
  destruct (find "*/" (drop (start + 2) todo)); [discriminate|]. simpl.
  now rewrite app_nil_r, app_assoc.
Qed.

Lemma unterminated_block_comment_keeps_space_witness :
  strip ("x /* c */ y /* z" ++ str1 newline ++ "w") = "x   y  ".
Proof.
  apply (unterminated_block_comment_keeps_space _ 1
           (" y /* z" ++ str1 newline ++ "w") "x  " 3); reflexivity.
Defined.

(** C3, as stated, fails: an unterminated block comment still leaves the
    replacement space after the text before the opener. *)
Lemma unterminated_block_comment_counterexample :
  strip "a/*b" = "a " /\ strip "a/*b" <> "a".
Proof. split; [reflexivity | discriminate]. Qed.

(** * The pragma parser: properties *)

Section DictFacts.

Lemma remove_char_has_digit (c : ascii) (s : string) :
  isdigit c = false -> has_digit (remove_char c s) = has_digit s.
Proof.
  intros Hc. induction s as [|a s IH]; simpl; [reflexivity|].
  destruct (Ascii.eqb_spec a c) as [->|_]; simpl; rewrite IH;
    [now rewrite Hc | reflexivity].
Qed.

(** A text with a digit is still true after the blanks are removed. *)
Lemma has_digit_truthy (s : string) :
  has_digit s = true -> truthy (Some (remove_blanks s)) = true.
Proof.
  intros H. unfold remove_blanks.
  assert (Hd : has_digit (remove_char tab (remove_char " " s)) = true)
    by now rewrite !remove_char_has_digit.
  now destruct (remove_char tab (remove_char " " s)).
Qed.

Lemma min_inequality_cases (r2 : string) :
  in_list (if in_list r2 [">"; "<"; ">="; "<="; "="] then r2 else "")
          [""; ">"; "<"; ">="; "<="; "="] = true.
Proof.
  destruct (in_list r2 [">"; "<"; ">="; "<="; "="]) eqn:E; [|reflexivity].
  unfold in_list in *. cbn [existsb] in *. rewrite E. apply orb_true_r.
Qed.

Lemma caret_not_inequality (r2 : string) :
  (if String.eqb r2 "^" then r2 else "") = "^" ->
  (if in_list r2 [">"; "<"; ">="; "<="; "="] then r2 else "") = "".
Proof.
  destruct (String.eqb_spec r2 "^") as [->|_]; [reflexivity | discriminate].
Qed.

End DictFacts.

(** C6.  The range pragma with no blank between the two bounds. *)
Theorem parse_pragma_range_example :
  parse_pragma "pragma solidity >=0.4.21<0.6.0;" =
  Returned {| min_carrot := ""; min_inequality := ">=";
              min_version := "0.4.21";
              max_inequality := Some "<"; max_version := Some "0.6.0" |}.
Proof. reflexivity. Qed.

(** C5 fails on the code.  With no operator before the first version, the
    token at index 4 is the second version: it lands in the operator field,
    and the version field stays [None].  The upper bound is then dropped from
    the constraint expression. *)
Theorem parse_pragma_unpaired_max :
  parse_pragma "pragma solidity 0.4.0 <0.6.0" =
  Returned {| min_carrot := ""; min_inequality := ""; min_version := "0.4.0";
              max_inequality := Some "0.6.0"; max_version := None |} /\
  version_spec {| min_carrot := ""; min_inequality := ""; min_version := "0.4.0";
                  max_inequality := Some "0.6.0"; max_version := None |}
  = "0.4.0".
Proof. split; reflexivity. Qed.

(** C4, as the code has it.  For every line that the parser accepts with a
    [max_version], the constraint expression is [min_inequality], the first
    version, a comma, [max_inequality] and the second version, the versions
    without blanks.  [min_inequality] is one of the five comparison
    operators or empty; it is empty when the prefix is a caret, which is
    kept in [min_carrot] only and is not part of the expression. *)
Theorem version_spec_range_format :
  forall (line : string) (d : pragma_dict) (mv : string),
    parse_pragma line = Returned d ->
    max_version d = Some mv ->
    exists mo : string,
      max_inequality d = Some mo /\
      version_spec d =
        min_inequality d ++ remove_blanks (min_version d) ++ ","
        ++ mo ++ remove_blanks mv /\
      in_list (min_inequality d) [""; ">"; "<"; ">="; "<="; "="] = true /\
      (min_carrot d = "^" -> min_inequality d = "").
Proof.
  intros line d mv H Hmv. unfold parse_pragma, Pyparsing.parseString in H.
  destruct (Grammar.pragma true (Pyparsing.expandtabs 0 line))
    as [[ts rest]|] eqn:E; [|discriminate].
  apply pragma_shape in E.
  destruct E as [w1 w2 pre ver Hpre Hver | w1 w2 pre ver pre2 ver2 Hpre Hver Hpre2 Hver2].
  - destruct pre as [|p [|]]; simpl in Hpre; try lia;
      cbn -[in_list String.eqb] in H;
      match type of H with
      | context [bind (if ?c then _ else _) _] => destruct c
      end; cbn in H; try discriminate H; injection H as <-; discriminate Hmv.
  - destruct pre as [|p [|]]; simpl in Hpre; try lia;
      (destruct pre2 as [|o [|]]; simpl in Hpre2; try lia);
      cbn -[in_list String.eqb] in H;
      match type of H with
      | context [bind (if ?c then _ else _) _] => destruct c
      end; cbn -[in_list String.eqb] in H; try discriminate H; injection H as <-;
      cbn in Hmv; try discriminate Hmv; injection Hmv as <-.
    all: unfold version_spec; cbn -[in_list String.eqb truthy remove_blanks].
    all: rewrite (has_digit_truthy _ Hver2).
    all: exists o; split; [reflexivity|]; split; [reflexivity|].
    all: split; [apply min_inequality_cases | apply caret_not_inequality].
Qed.

Lemma version_spec_range_format_witness :
  exists mo : string,
    max_inequality caret_range_dict = Some mo /\
    version_spec caret_range_dict =
      min_inequality caret_range_dict
      ++ remove_blanks (min_version caret_range_dict) ++ ","
      ++ mo ++ remove_blanks "0.6.0" /\
    in_list (min_inequality caret_range_dict)
            [""; ">"; "<"; ">="; "<="; "="] = true /\
    (min_carrot caret_range_dict = "^" -> min_inequality caret_range_dict = "").
Proof.
  apply (version_spec_range_format "pragma solidity ^0.4.0 <0.6.0");
    reflexivity.
Defined.

(** C4, as stated, fails: a caret that was parsed as the prefix is not in
    the expression that reaches [semver.SimpleSpec]. *)
Lemma version_spec_caret_counterexample :
  parse_pragma "pragma solidity ^0.4.0 <0.6.0" = Returned caret_range_dict /\
  version_spec caret_range_dict = "0.4.0,<0.6.0" /\
  version_spec caret_range_dict <> "^0.4.0,<0.6.0" /\
  fst (extract_version exact_spec [] (Some "pragma solidity ^0.4.0 <0.6.0;")) =
  [Call_remove_comments_strings;
   Call_parse_pragma "pragma solidity ^0.4.0 <0.6.0";
   Call_SimpleSpec "0.4.0,<0.6.0"; Loop_all_versions].
Proof. repeat split. discriminate. Qed.

(** * The version resolver: properties *)

Section ResolverFacts.

Variable SimpleSpec : string -> outcome (Version -> bool).
Variable all_versions : list Version.

Lemma find_version_line_none (lines : list string) :
  (forall line, In line lines -> contains "pragma solidity" line = false) ->
  find_version_line lines = None.
Proof.
  induction lines as [|l lines IH]; intros H; [reflexivity|]. simpl.
  rewrite (H l) by now left. simpl. apply IH. intros line Hin.
  apply H. now right.
Qed.

(** The three ways in which [extract_version] ends: with [None] before any
    parsing, with an exception, or with the result of the loop over the
    registry for the constraint that [SimpleSpec] gave. *)
Lemma extract_version_cases (file : option string) :
  let res := extract_version SimpleSpec all_versions file in
  (snd res = Returned None /\
   (fst res = [] \/ fst res = [Call_remove_comments_strings])) \/
  (exists e, snd res = Raised e) \/
  (exists line spec version_constraint,
      fst res = [Call_remove_comments_strings; Call_parse_pragma line;
                 Call_SimpleSpec spec; Loop_all_versions] /\
      SimpleSpec spec = Returned version_constraint /\
      snd res = Returned (resolve version_constraint all_versions)).
Proof.
  destruct file as [file|]; simpl; [|left; split; [reflexivity | now left]].
  destruct (find_version_line _) as [version_line|];
    [|left; split; [reflexivity | now right]].
  destruct (negb (contains "pragma solidity" version_line));
    [right; left; now eexists|].
  destruct (last version_line) as [c|]; [|right; left; now eexists].
  simpl. destruct (parse_pragma _) as [d|e]; [|right; left; now eexists].
  simpl. destruct (SimpleSpec (version_spec d)) as [vc|e] eqn:E;
    [|right; left; now eexists].
  right; right. simpl. now eexists _, _, vc.
Qed.

Lemma resolve_find (version_constraint : Version -> bool) :
  resolve version_constraint all_versions =
  option_map Version_str
    (List.find (fun v => version_constraint v && negb (excluded v))
       all_versions).
Proof.
  induction all_versions as [|v rest IH]; [reflexivity|]. simpl.
  unfold excluded at 1.
  destruct (version_constraint v); simpl; [|exact IH].
  destruct (contains "0.5.17" (Version_str v)); simpl; [exact IH | reflexivity].
Qed.

Lemma resolve_not_excluded (version_constraint : Version -> bool) (s : string) :
  resolve version_constraint all_versions = Some s ->
  contains "0.5.17" s = false.
Proof.
  induction all_versions as [|v rest IH]; [discriminate|]. simpl.
  destruct (version_constraint v); [|exact IH].
  destruct (contains "0.5.17" (Version_str v)) eqn:E; [exact IH|].
  now intros [= <-].
Qed.

End ResolverFacts.

(** C1.  The loop goes through the registry in its order and returns the text
    of the first version that is in the constraint and not excluded: every
    version before it fails one of the two; the result is [None] exactly when
    every version of the registry fails one of the two.  A version that
    [extract_version] returns is the result of this loop for the constraint
    that the comparator made of the parsed pragma. *)
Theorem resolve_first_satisfying :
  forall all_versions : list Version,
    (forall version_constraint : Version -> bool,
        resolve version_constraint all_versions =
          option_map Version_str
            (List.find (fun v => version_constraint v && negb (excluded v))
               all_versions) /\
        match resolve version_constraint all_versions with
        | Some s =>
            exists before v after,
              all_versions = (before ++ v :: after)%list /\
              s = Version_str v /\
              version_constraint v = true /\ excluded v = false /\
              forall u, In u before ->
                        version_constraint u && negb (excluded u) = false
        | None =>
            forall u, In u all_versions ->
                      version_constraint u && negb (excluded u) = false
        end) /\
    (forall SimpleSpec file s,
        snd (extract_version SimpleSpec all_versions file) = Returned (Some s) ->
        exists spec version_constraint,
          SimpleSpec spec = Returned version_constraint /\
          resolve version_constraint all_versions = Some s).
Proof.
  intros reg. split.
  - intros vc. split; [apply resolve_find|].
    induction reg as [|v rest IH]; simpl; [now intros u []|].
    destruct (vc v) eqn:Ev.
    + destruct (contains "0.5.17" (Version_str v)) eqn:Ex.
      * destruct (resolve vc rest) as [s|].
        -- destruct IH as (before & w & after & -> & -> & Hw & Hx & Hb).
           exists (v :: before), w, after. repeat split; trivial.
           intros u [<-|Hu]; [|now apply Hb].
           unfold excluded. now rewrite Ev, Ex.
        -- intros u [<-|Hu]; [|now apply IH].
           unfold excluded. now rewrite Ev, Ex.
      * exists [], v, rest. repeat split; trivial. now intros u [].
    + destruct (resolve vc rest) as [s|].
      * destruct IH as (before & w & after & -> & -> & Hw & Hx & Hb).
        exists (v :: before), w, after. repeat split; trivial.
        intros u [<-|Hu]; [|now apply Hb]. now rewrite Ev.
      * intros u [<-|Hu]; [|now apply IH]. now rewrite Ev.
  - intros SimpleSpec file s H.
    destruct (extract_version_cases SimpleSpec reg file)
      as [[H0 _] | [[e He] | (line & spec & c & _ & Hc & Hr)]];
      rewrite H in *; try discriminate.
    injection Hr as Hr. now exists spec, c.
Qed.

Lemma resolve_first_satisfying_witness :
  exists spec version_constraint,
    exact_spec spec = Returned version_constraint /\
    resolve version_constraint [release 0 4 25; release 0 4 26] = Some "0.4.26".
Proof.
  apply (proj2 (resolve_first_satisfying [release 0 4 25; release 0 4 26])
           exact_spec (Some "pragma solidity 0.4.26;")).
  reflexivity.
Defined.

(** C2.  Whatever the registry and the constraint, the loop never returns
    [0.5.17], nor any text in which it occurs: a version whose text contains
    it is passed over, in the constraint or not; and so [extract_version]
    never returns it either. *)
Theorem never_returns_0_5_17 :
  forall (version_constraint : Version -> bool) (all_versions : list Version),
    (forall s, resolve version_constraint all_versions = Some s ->
               contains "0.5.17" s = false /\ s <> "0.5.17") /\
    (forall version,
        contains "0.5.17" (Version_str version) = true ->
        resolve version_constraint (version :: all_versions) =
        resolve version_constraint all_versions) /\
    (forall SimpleSpec file s,
        snd (extract_version SimpleSpec all_versions file) = Returned (Some s) ->
        contains "0.5.17" s = false /\ s <> "0.5.17").
Proof.
  intros vc reg.
  assert (Hne : forall s, contains "0.5.17" s = false -> s <> "0.5.17")
    by (intros s H ->; discriminate H).
  split; [|split].
  - intros s H. apply resolve_not_excluded in H. auto.
  - intros version H. simpl. rewrite H. now destruct (vc version).
  - intros SimpleSpec file s H.
    destruct (extract_version_cases SimpleSpec reg file)
      as [[H0 _] | [[e He] | (line & spec & c & _ & _ & Hr)]];
      rewrite H in *; try discriminate.
    injection Hr as Hr. symmetry in Hr. apply resolve_not_excluded in Hr. auto.
Qed.

Lemma never_returns_0_5_17_witness :
  resolve (fun _ => true) [release 0 5 17; release 1 0 5; release 0 5 16] =
  resolve (fun _ => true) [release 1 0 5; release 0 5 16].
Proof.
  apply (proj1 (proj2 (never_returns_0_5_17 (fun _ => true)
                         [release 1 0 5; release 0 5 16]))).
  reflexivity.
Defined.

(** C9, as the code has it.  When no line of the stripped text contains
    [pragma solidity], [extract_version] returns [None] after the stripper
    alone was called (no parser, no comparator, no loop over the registry),
    and [extract_binary] returns [None] with the value of [SOLC] when that is
    set and not empty, and with [solc] otherwise. *)
Theorem no_pragma_short_circuits :
  forall (SimpleSpec : string -> outcome (Version -> bool))
         (all_versions : list Version)
         (solcx_executable : string -> outcome string)
         (text : string) (environ_SOLC : option string),
    (forall line, In line (split newline (strip text)) ->
                  contains "pragma solidity" line = false) ->
    extract_version SimpleSpec all_versions (Some text) =
      ([Call_remove_comments_strings], Returned None) /\
    extract_binary SimpleSpec all_versions solcx_executable text environ_SOLC =
      ([Call_remove_comments_strings],
       Returned (match environ_SOLC with
                 | Some (String c s) => String c s
                 | _ => "solc"
                 end, None)).
Proof.
  intros SimpleSpec reg exe text env H.
  assert (E : extract_version SimpleSpec reg (Some text) =
              ([Call_remove_comments_strings], Returned None)).
  { unfold extract_version. simpl. fold (strip text).
    now rewrite (find_version_line_none _ H). }
  split; [exact E|]. unfold extract_binary. rewrite E. reflexivity.
Qed.

Lemma no_pragma_short_circuits_witness :
  extract_version exact_spec [release 0 5 0] (Some no_pragma_source) =
    ([Call_remove_comments_strings], Returned None) /\
  extract_binary exact_spec [release 0 5 0] (fun _ => Raised SolcxError)
    no_pragma_source (Some "/usr/bin/solc") =
    ([Call_remove_comments_strings], Returned ("/usr/bin/solc", None)).
Proof.
  apply (no_pragma_short_circuits exact_spec [release 0 5 0]
           (fun _ => Raised SolcxError) no_pragma_source (Some "/usr/bin/solc")).
  intros line Hin. vm_compute in Hin.
  destruct Hin as [<-|[<-|[]]]; reflexivity.
Defined.

(** C9, as stated, fails: with [SOLC] set to the empty text the binary is
    [solc], not the value of the variable. *)
Lemma empty_SOLC_counterexample :
  extract_binary exact_spec [] (fun _ => Raised SolcxError)
    "contract C {}" (Some "") =
    ([Call_remove_comments_strings], Returned ("solc", None)) /\
  extract_binary exact_spec [] (fun _ => Raised SolcxError)
    "contract C {}" (Some "") <>
    ([Call_remove_comments_strings], Returned ("", None)).
Proof. split; [reflexivity | discriminate]. Qed.

(** C10.  On [None], [extract_version] returns [None] at once: it calls
    neither the stripper nor the parser nor the comparator, and does not go
    through the registry. *)
Theorem extract_version_of_None :
  forall (SimpleSpec : string -> outcome (Version -> bool))
         (all_versions : list Version),
    extract_version SimpleSpec all_versions None = ([], Returned None).
Proof. reflexivity. Qed.

(** * Further properties of the pipeline *)

Section LengthFacts.

(** An iteration moves text from [todo] to [done] and never adds to the
    total: the two characters of a block-comment opener pay for the space. *)
Lemma strip_step_length (todo done : string) :
  match strip_step todo done with
  | Break r => String.length r <= String.length done + String.length todo
  | Continue todo' done' =>
      String.length done' + String.length todo'
      <= String.length done + String.length todo
  end.
Proof.
  unfold strip_step.
  destruct (VOID_START_search todo) as [[start t]|] eqn:E;
    [|strlen].
  pose proof (VOID_START_search_bound _ _ _ E) as Hb.
  destruct t; simpl in Hb; unfold find_from; simpl void_len.
  - destruct (find _ _); simpl; strlen.
  - destruct (find _ _); simpl; strlen.
  - destruct (DQUOTE_END_search _); strlen.
  - destruct (QUOTE_END_search _); strlen.
Qed.

Lemma strip_loop_length (fuel : nat) :
  forall todo done r,
    strip_loop fuel todo done = Some r ->
    String.length r <= String.length done + String.length todo.
Proof.
  induction fuel as [|fuel IH]; intros todo done r; [discriminate|]. simpl.
  pose proof (strip_step_length todo done) as Hs.
  destruct (strip_step todo done) as [r'|todo' done'].
  - now intros [= <-].
  - intros H. apply IH in H. lia.
Qed.

End LengthFacts.

(** The loop of the stripper ends on every text: [len(todo) + 1] iterations
    are enough from any state, and the function returns its result. *)
Theorem strip_terminates :
  forall todo done : string,
    exists r, strip_loop (S (String.length todo)) todo done = Some r.
Proof. intros todo done. apply strip_loop_enough. lia. Qed.

(** The stripper never lengthens a text: the space that replaces a block
    comment is shorter than the opener it replaces. *)
Theorem strip_never_lengthens :
  forall text : string, String.length (strip text) <= String.length text.
Proof.
  intros text. unfold strip.
  pose proof (remove_comments_strings_run (split newline text)) as Hrun.
  cbv zeta in Hrun. rewrite join_split in Hrun.
  apply strip_loop_length in Hrun. simpl in Hrun. exact Hrun.
Qed.

Section ExceptionFacts.

Lemma has_digit_not_operator (s : string) :
  has_digit s = true ->
  in_list s [">"; "<"; ">="; "<="; "="] = false /\ String.eqb s "^" = false.
Proof.
  intros H. split.
  - destruct (in_list s [">"; "<"; ">="; "<="; "="]) eqn:E; [|reflexivity].
    unfold in_list in E. apply existsb_exists in E as (x & Hin & Hx).
    apply String.eqb_eq in Hx. subst x.
    simpl in Hin.
    repeat (destruct Hin as [<-|Hin]; [discriminate H|]). contradiction.
  - destruct (String.eqb_spec s "^") as [Hs|]; [|reflexivity].
    rewrite Hs in H. discriminate H.
Qed.

(** The indices that [parse_pragma] reads exist in every token list of the
    grammar: the only exception of the parser is [ParseException]. *)
Lemma parse_pragma_raises (line : string) (e : exn) :
  parse_pragma line = Raised e -> e = ParseException.
Proof.
  unfold parse_pragma, Pyparsing.parseString.
  destruct (Grammar.pragma true (Pyparsing.expandtabs 0 line))
    as [[ts rest]|] eqn:E; [|now intros [= <-]].
  apply pragma_shape in E.
  destruct E as [w1 w2 pre ver Hpre Hver | w1 w2 pre ver pre2 ver2 Hpre Hver Hpre2 Hver2].
  - destruct pre as [|p [|]]; simpl in Hpre; try lia;
      cbn -[in_list String.eqb]; intros H.
    + destruct (has_digit_not_operator _ Hver) as [H1 H2].
      rewrite H1, H2 in H. discriminate H.
    + destruct (negb _ || negb _) in H; discriminate H.
  - destruct pre as [|p [|]]; simpl in Hpre; try lia;
      (destruct pre2 as [|o [|]]; simpl in Hpre2; try lia);
      cbn -[in_list String.eqb]; intros H.
    1, 2: destruct (has_digit_not_operator _ Hver) as [H1 H2];
      rewrite H1, H2 in H; discriminate H.
    all: destruct (negb _ || negb _) in H; discriminate H.
Qed.

Lemma rstrip_app_nonspace (a : string) (c : ascii) (b : string) :
  isspace c = false ->
  rstrip (a ++ String c b) = a ++ String c (rstrip b).
Proof.
  intros Hc. induction a as [|x a IH]; simpl.
  - destruct (rstrip b); [now rewrite Hc | reflexivity].
  - rewrite IH. now destruct a.
Qed.

(** Right-stripping keeps an occurrence of [pragma solidity]: the assertion
    of [extract_version] holds whenever it is reached. *)
Lemma rstrip_keeps_pragma (line : string) :
  contains "pragma solidity" line = true ->
  contains "pragma solidity" (rstrip line) = true.
Proof.
  intros H. apply contains_iff in H as (a & b & ->).
  apply contains_iff. exists a, (rstrip b).
  change "pragma solidity" with ("pragma solidit" ++ "y").
  rewrite !app_assoc. rewrite <- (app_assoc a "pragma solidit").
  simpl ("y" ++ _).
  rewrite rstrip_app_nonspace by reflexivity.
  now rewrite app_assoc.
Qed.

Lemma find_version_line_some (lines : list string) (version_line : string) :
  find_version_line lines = Some version_line ->
  contains "pragma solidity" version_line = true.
Proof.
  induction lines as [|l lines IH]; [discriminate|]. simpl.
  destruct (contains "pragma solidity" l) eqn:E; simpl; [|exact IH].
  intros [= <-]. now apply rstrip_keeps_pragma.
Qed.

Lemma last_cons (c : ascii) (s : string) : last (String c s) <> None.
Proof.
  revert c; induction s as [|x s IH]; intros c; [discriminate | apply IH].
Qed.

Lemma contains_last (s : string) :
  contains "pragma solidity" s = true -> last s <> None.
Proof.
  intros H. apply contains_iff in H as (a & b & ->).
  destruct a; apply last_cons.
Qed.

End ExceptionFacts.

Section RegistryFacts.

Variable SimpleSpec : string -> outcome (Version -> bool).
Variable semver_Version : string -> outcome Version.

(** The loop raises at the first entry that does not convert, when every
    entry before it is passed. *)
Lemma resolve_entries_raises (version_constraint : Version -> bool)
  (all_versions : list string) (e : exn) :
  resolve_entries semver_Version version_constraint all_versions = Raised e
  <->
  exists before version after,
    all_versions = (before ++ version :: after)%list /\
    Forall (passed semver_Version version_constraint) before /\
    semver_Version version = Raised e.
Proof.
  induction all_versions as [|t rest IH].
  - split; [discriminate|]. intros (before & version & after & H & _).
    now destruct before.
  - cbn [resolve_entries]. split.
    + destruct (semver_Version t) as [v|e'] eqn:Et; cbn [bind].
      * intros H.
        assert (Hp : passed semver_Version version_constraint t /\
                     resolve_entries semver_Version version_constraint rest
                     = Raised e).
        { destruct (version_constraint v) eqn:Ev.
          - destruct (contains "0.5.17" (Version_str v)) eqn:Ex;
              [|discriminate H].
            split; [exists v; auto | exact H].
          - split; [exists v; auto | exact H]. }
        destruct Hp as [Hp Hr].
        apply IH in Hr as (before & version & after & -> & Hb & Hv).
        exists (t :: before), version, after. auto.
      * intros [= ->]. exists [], t, rest. auto.
    + intros (before & version & after & H & Hb & Hv).
      destruct before as [|t' before]; cbn [app] in H; injection H as -> ->.
      * now rewrite Hv.
      * inversion Hb as [|? ? (v & Ev & Hskip) Hb']; subst.
        rewrite Ev. cbn [bind].
        assert (Hr : resolve_entries semver_Version version_constraint
                       (before ++ version :: after) = Raised e)
          by (apply IH; now exists before, version, after).
        destruct Hskip as [-> | Hx]; [exact Hr|].
        rewrite Hx. now destruct (version_constraint v).
Qed.

(** On a registry whose entries all convert, the loop is [resolve] on the
    converted entries. *)
Lemma resolve_entries_converted (version_constraint : Version -> bool)
  (all_versions : list string) (versions : list Version) :
  Forall2 (fun text v => semver_Version text = Returned v)
    all_versions versions ->
  resolve_entries semver_Version version_constraint all_versions =
  Returned (resolve version_constraint versions).
Proof.
  induction 1 as [|text v texts vs Hv _ IH]; [reflexivity|].
  cbn [resolve_entries resolve]. rewrite Hv. cbn [bind]. rewrite IH.
  destruct (version_constraint v); [|reflexivity].
  now destruct (contains "0.5.17" (Version_str v)).
Qed.

Lemma extract_version_entries_converted (all_versions : list string)
  (versions : list Version) (file : option string) :
  Forall2 (fun text v => semver_Version text = Returned v)
    all_versions versions ->
  extract_version_entries SimpleSpec semver_Version all_versions file =
  extract_version SimpleSpec versions file.
Proof.
  intros H. unfold extract_version_entries, extract_version.
  destruct file as [file|]; [|reflexivity].
  cbn [calling bindT].
  destruct (find_version_line _) as [version_line|]; [|reflexivity].
  destruct (negb _); [reflexivity|].
  destruct (last version_line) as [c|]; [|reflexivity].
  destruct (parse_pragma _) as [d|e]; [|reflexivity].
  cbn [calling bindT].
  destruct (SimpleSpec (version_spec d)) as [vc|e]; [|reflexivity].
  now rewrite (resolve_entries_converted vc _ _ H).
Qed.

End RegistryFacts.

(** The exceptions of [extract_version], with the conversion of the entries
    of the registry in its loop.  When the function raises, one of three
    things happened.  The parser refused the line: [ParseException], after
    the stripper and the parser only.  Or [semver.SimpleSpec] raised on the
    constraint expression of the parsed line, before the loop.  Or the loop
    reached an entry of the registry on which [semver.Version] raised, after
    entries that all converted and were passed over.  The assertion and the
    indexing never fail. *)
Theorem extract_version_exceptions :
  forall (SimpleSpec : string -> outcome (Version -> bool))
         (semver_Version : string -> outcome Version)
         (all_versions : list string) (file : option string),
    let res :=
      extract_version_entries SimpleSpec semver_Version all_versions file in
    match snd res with
    | Returned _ => True
    | Raised e =>
        (exists line,
            parse_pragma line = Raised e /\ e = ParseException /\
            fst res = [Call_remove_comments_strings; Call_parse_pragma line])
        \/
        (exists line d,
            parse_pragma line = Returned d /\
            SimpleSpec (version_spec d) = Raised e /\
            fst res = [Call_remove_comments_strings; Call_parse_pragma line;
                       Call_SimpleSpec (version_spec d)])
        \/
        (exists line d version_constraint before version after,
            parse_pragma line = Returned d /\
            SimpleSpec (version_spec d) = Returned version_constraint /\
            all_versions = (before ++ version :: after)%list /\
            Forall (passed semver_Version version_constraint) before /\
            semver_Version version = Raised e /\
            fst res = [Call_remove_comments_strings; Call_parse_pragma line;
                       Call_SimpleSpec (version_spec d); Loop_all_versions])
    end.
Proof.
  intros SimpleSpec semver_Version reg [file|]; cbv zeta; simpl; [|exact I].
  destruct (find_version_line _) as [version_line|] eqn:E; [|exact I].
  apply find_version_line_some in E. rewrite E. simpl.
  destruct (last version_line) as [c|] eqn:El;
    [|now apply contains_last in E].
  simpl. destruct (parse_pragma _) as [d|e] eqn:Ep.
  - simpl. destruct (SimpleSpec (version_spec d)) as [vc|e] eqn:Es; simpl.
    + destruct (resolve_entries semver_Version vc reg) as [r|e] eqn:Er;
        simpl; [exact I|].
      right; right.
      apply resolve_entries_raises in Er
        as (before & version & after & Hreg & Hb & Hv).
      eexists _, d, vc, before, version, after.
      repeat split; [exact Ep | exact Es | exact Hreg | exact Hb | exact Hv].
    + right; left. eexists _, d. repeat split; [exact Ep | exact Es].
  - simpl. left. eexists. split; [exact Ep|].
    split; [exact (parse_pragma_raises _ _ Ep) | reflexivity].
Qed.

(** The caret pragma of the specification's examples: the caret is in
    [min_carrot], and there is no upper bound. *)
Theorem parse_pragma_caret_example :
  parse_pragma "pragma solidity ^0.5.0;" =
  Returned {| min_carrot := "^"; min_inequality := ""; min_version := "0.5.0";
              max_inequality := None; max_version := None |}.
Proof. reflexivity. Qed.

(** The end-to-end example of the specification.  The expression that reaches
    the comparator is [0.8.0], without the caret; with a comparator that takes
    it as that one version, the result is [0.8.0]. *)
Theorem extract_version_end_to_end :
  forall (SimpleSpec : string -> outcome (Version -> bool))
         (version_constraint : Version -> bool),
    SimpleSpec "0.8.0" = Returned version_constraint ->
    version_constraint (release 0 7 6) = false ->
    version_constraint (release 0 8 0) = true ->
    extract_version SimpleSpec [release 0 7 6; release 0 8 0; release 0 8 1]
      (Some ("pragma solidity ^0.8.0;" ++ str1 newline ++ "// comment"
             ++ str1 newline ++ "contract C {}")) =
    ([Call_remove_comments_strings; Call_parse_pragma "pragma solidity ^0.8.0";
      Call_SimpleSpec "0.8.0"; Loop_all_versions], Returned (Some "0.8.0")).
Proof.
  intros SimpleSpec vc Hspec H076 H080.
  vm_compute in H076, H080.
  vm_compute. rewrite Hspec.
  vm_compute. now rewrite H076, H080.
Qed.

Lemma extract_version_end_to_end_witness :
  extract_version exact_spec [release 0 7 6; release 0 8 0; release 0 8 1]
    (Some ("pragma solidity ^0.8.0;" ++ str1 newline ++ "// comment"
           ++ str1 newline ++ "contract C {}")) =
  ([Call_remove_comments_strings; Call_parse_pragma "pragma solidity ^0.8.0";
    Call_SimpleSpec "0.8.0"; Loop_all_versions], Returned (Some "0.8.0")).
Proof.
  apply (extract_version_end_to_end exact_spec
           (fun v => String.eqb (Version_str v) "0.8.0")); reflexivity.
Defined.

(** * The lexical stripper: how it composes *)

Section StripperComposition.

(** What is already in [done] stays in front of the result. *)
Lemma strip_step_done (d todo done : string) :
  strip_step todo (d ++ done) =
  match strip_step todo done with
  | Break r => Break (d ++ r)
  | Continue todo' done' => Continue todo' (d ++ done')
  end.
Proof.
  unfold strip_step.
  destruct (VOID_START_search todo) as [[start t]|];
    [|now rewrite app_assoc].
  destruct t; simpl void_len.
  - destruct (find_from _ _ _); now rewrite app_assoc.
  - destruct (find_from _ _ _); now rewrite !app_assoc.
  - destruct (DQUOTE_END_search _); now rewrite app_assoc.
  - destruct (QUOTE_END_search _); now rewrite app_assoc.
Qed.

Lemma strip_loop_done (fuel : nat) :
  forall d todo done,
    strip_loop fuel todo (d ++ done) =
    option_map (append d) (strip_loop fuel todo done).
Proof.
  induction fuel as [|fuel IH]; intros d todo done; [reflexivity|]. simpl.
  rewrite strip_step_done.
  destruct (strip_step todo done); [reflexivity | apply IH].
Qed.

(** After one iteration that goes on, the result is what was copied and the
    result for the text that is left. *)
Lemma strip_one_step (text todo done : string) :
  strip_step text "" = Continue todo done ->
  strip text = done ++ strip todo.
Proof.
  intros H.
  apply (remove_comments_strings_from text 1 todo done _
           (S (String.length todo))).
  - simpl. now rewrite H.
  - rewrite <- (app_nil_r done) at 1. rewrite strip_loop_done.
    pose proof (remove_comments_strings_run (split newline todo)) as Hrun.
    cbv zeta in Hrun. rewrite join_split in Hrun. unfold strip.
    now rewrite Hrun.
Qed.

Lemma strip_break (text r : string) :
  strip_step text "" = Break r -> strip text = r.
Proof.
  intros H. apply (remove_comments_strings_from text 0 text "" _ 1);
    [reflexivity|]. simpl. now rewrite H.
Qed.

Lemma VOID_START_match_app (c : ascii) (s tail : string) :
  s <> "" ->
  VOID_START_match (String c s ++ tail) = VOID_START_match (String c s).
Proof.
  intros Hs. destruct s as [|d s]; [contradiction|]. reflexivity.
Qed.

Lemma VOID_START_match_quote (s : string) (t : void_start) :
  VOID_START_match s = Some t ->
  t = DoubleQuote \/ t = SingleQuote ->
  exists r, s = String dquote r \/ s = String squote r.
Proof.
  unfold VOID_START_match.
  destruct (startswith "//" s); [now intros [= <-] [|]|].
  destruct (startswith "/*" s); [now intros [= <-] [|]|].
  destruct (startswith (str1 dquote) s) eqn:E3.
  { apply startswith_iff in E3 as [r ->]. intros _ _. exists r. now left. }
  destruct (startswith (str1 squote) s) eqn:E4; [|discriminate].
  apply startswith_iff in E4 as [r ->]. intros _ _. exists r. now right.
Qed.

Lemma VOID_START_match_single (c : ascii) (s : string) (t : void_start) :
  VOID_START_match (str1 c) = None ->
  VOID_START_match s = Some t ->
  (c <> "/"%char \/ t = DoubleQuote \/ t = SingleQuote) ->
  VOID_START_match (String c s) = None.
Proof.
  intros Hc Hs Ht.
  destruct (Ascii.eqb_spec c "/") as [->|Hn].
  - destruct Ht as [Ht|Ht]; [now elim Ht|].
    destruct (VOID_START_match_quote _ _ Hs Ht) as [r [-> | ->]]; reflexivity.
  - unfold VOID_START_match, str1 in *. cbn -[Ascii.eqb] in *.
    apply Ascii.eqb_neq in Hn. rewrite Ascii.eqb_sym in Hn.
    rewrite Hn in *. cbn -[Ascii.eqb] in *.
    destruct s; cbn -[Ascii.eqb] in *; rewrite ?andb_true_r in *; exact Hc.
Qed.

(** The first trigger of [pre ++ s] is at the start of [s] when [pre] has
    none and no trigger starts at the last character of [pre]. *)
Lemma VOID_START_search_app (pre s : string) (t : void_start) :
  VOID_START_search pre = None ->
  (last pre <> Some "/"%char \/ t = DoubleQuote \/ t = SingleQuote) ->
  VOID_START_match s = Some t ->
  VOID_START_search (pre ++ s) = Some (String.length pre, t).
Proof.
  intros Hpre Hlast Hs. induction pre as [|c pre IH].
  - simpl. destruct s; [discriminate Hs|].
    cbn [VOID_START_search]. now rewrite Hs.
  - cbn [VOID_START_search] in Hpre.
    destruct (VOID_START_match (String c pre)) eqn:Em; [discriminate|].
    destruct (VOID_START_search pre) as [[i u]|] eqn:Es; [discriminate|].
    assert (Hm : VOID_START_match (String c pre ++ s) = None).
    { destruct pre as [|d pre].
      - apply (VOID_START_match_single c s t Em Hs).
        destruct Hlast as [Hl|Hl]; [left | now right].
        intros ->. now apply Hl.
      - now rewrite VOID_START_match_app. }
    change (String c pre ++ s) with (String c (pre ++ s)) in *.
    cbn [VOID_START_search]. rewrite Hm.
    rewrite IH; [reflexivity | reflexivity |].
    destruct Hlast as [Hl|Hl]; [left | now right].
    destruct pre; [discriminate | exact Hl].
Qed.

Lemma startswith_app_long (p : string) :
  forall u v, String.length p <= String.length u ->
              startswith p (u ++ v) = startswith p u.
Proof.
  induction p as [|a p IH]; intros u v Hlen; [reflexivity|].
  destruct u as [|b u]; simpl in *; [lia|].
  rewrite IH by lia. reflexivity.
Qed.

Lemma find_unfold (p s : string) :
  find p s =
  if startswith p s then Some 0
  else match s with
       | EmptyString => None
       | String _ s' => option_map S (find p s')
       end.
Proof. now destruct s. Qed.

(** [find] stops at the first occurrence: the pattern [q ++ z] is found
    right after [a] when it does not occur in [a ++ q]. *)
Lemma find_app_first (q : string) (z : ascii) (a rest : string) :
  contains (q ++ str1 z) (a ++ q) = false ->
  find (q ++ str1 z) (a ++ q ++ String z rest) = Some (String.length a).
Proof.
  induction a as [|x a IH]; intros H.
  - rewrite find_unfold. simpl (("" ++ _)%string).
    replace (q ++ String z rest) with ((q ++ str1 z) ++ rest)
      by now rewrite app_assoc.
    now rewrite startswith_app.
  - change (String x a ++ q) with (String x (a ++ q)) in H.
    rewrite contains_cons in H. apply orb_false_iff in H as [Hs Hc].
    rewrite find_unfold.
    replace (String x a ++ q ++ String z rest)
      with (String x (a ++ q) ++ String z rest)
      by (simpl; now rewrite app_assoc).
    rewrite startswith_app_long, Hs
      by (simpl; rewrite !length_app; simpl; lia).
    simpl. rewrite app_assoc. rewrite (IH Hc). reflexivity.
Qed.

(** The closing quote is the first quote that no backslash precedes. *)
Lemma quote_end_from_app (q : ascii) (body rest : string) :
  forall escaped,
    quote_end_from q escaped body = None ->
    match last body with
    | Some c => Ascii.eqb c backslash
    | None => escaped
    end = false ->
    quote_end_from q escaped (body ++ String q rest)
    = Some (S (String.length body)).
Proof.
  induction body as [|c body IH]; intros escaped Hnone Hlast.
  - simpl in *. subst escaped. now rewrite Ascii.eqb_refl.
  - cbn [quote_end_from] in Hnone.
    change (String c body ++ String q rest)
      with (String c (body ++ String q rest)).
    cbn [quote_end_from].
    destruct (Ascii.eqb c q && negb escaped); [discriminate|].
    destruct (quote_end_from q (Ascii.eqb c backslash) body) eqn:E;
      [discriminate|].
    rewrite (IH _ E); [reflexivity|].
    destruct body as [|a body]; [exact Hlast|].
    change (last (String c (String a body))) with (last (String a body))
      in Hlast.
    destruct (last (String a body)) eqn:El;
      [exact Hlast | now apply last_cons in El].
Qed.

Lemma find_char_first (z : ascii) (a rest : string) :
  contains (str1 z) a = false ->
  find (str1 z) (a ++ String z rest) = Some (String.length a).
Proof.
  intros H. apply (find_app_first "" z a rest). now rewrite app_nil_r.
Qed.

Lemma drop_past (pre mid tail : string) :
  drop (String.length pre + String.length mid) (pre ++ mid ++ tail) = tail.
Proof. now rewrite drop_add, !drop_app_length. Qed.

Lemma drop_literal (q : ascii) (pre body rest : string) :
  drop (String.length pre + 1 + S (String.length body))
    (pre ++ String q (body ++ String q rest)) = rest.
Proof.
  rewrite <- Nat.add_assoc, drop_add, drop_app_length.
  change (drop (1 + S (String.length body))
            (String q (body ++ String q rest)))
    with (drop (S (String.length body)) (body ++ String q rest)).
  replace (S (String.length body)) with (String.length body + 1) by lia.
  now rewrite drop_add, drop_app_length.
Qed.

End StripperComposition.

(** A line comment is removed up to the newline, which is kept; with no
    newline after it, the rest of the text is removed. *)
Theorem strip_line_comment :
  forall pre comment rest : string,
    VOID_START_search pre = None ->
    last pre <> Some "/"%char ->
    contains (str1 newline) comment = false ->
    strip (pre ++ "//" ++ comment ++ String newline rest)
      = pre ++ strip (String newline rest) /\
    strip (pre ++ "//" ++ comment) = pre.
Proof.
  intros pre comment rest Hpre Hlast Hnl.
  assert (Hfind : forall tail,
             VOID_START_search (pre ++ "//" ++ tail)
             = Some (String.length pre, LineComment))
    by (intros tail; now apply VOID_START_search_app; [|left|]).
  split.
  - apply strip_one_step. unfold strip_step. rewrite Hfind.
    unfold find_from. simpl void_len.
    change 2 with (String.length "//"). rewrite drop_past.
    rewrite (find_char_first newline comment rest Hnl).
    cbn [option_map]. simpl (("" ++ _)%string).
    rewrite take_app_length.
    rewrite drop_add, drop_past, drop_app_length. reflexivity.
  - rewrite <- (app_nil_r pre) at 2. rewrite <- (app_nil_r pre) at 2.
    replace ((pre ++ "") ++ "") with (pre ++ strip "")
      by now rewrite !app_nil_r.
    apply strip_one_step. unfold strip_step. rewrite Hfind.
    unfold find_from. simpl void_len.
    change 2 with (String.length "//"). rewrite drop_past.
    unfold contains in Hnl. destruct (find (str1 newline) comment);
      [discriminate|].
    cbn [option_map]. simpl (("" ++ _)%string).
    now rewrite take_app_length.
Qed.

Lemma strip_line_comment_witness :
  strip ("uint x; " ++ "//" ++ " a 'note'" ++ String newline "uint y;")
    = "uint x; " ++ strip (String newline "uint y;") /\
  strip ("uint x; " ++ "//" ++ " a 'note'") = "uint x; ".
Proof.
  apply (strip_line_comment "uint x; " " a 'note'" "uint y;");
    [reflexivity | discriminate | reflexivity].
Defined.

(** A closed block comment is replaced by one space, whatever it holds,
    and the scan goes on after the closer. *)
Theorem strip_block_comment :
  forall pre body rest : string,
    VOID_START_search pre = None ->
    last pre <> Some "/"%char ->
    contains "*/" (body ++ "*") = false ->
    strip (pre ++ "/*" ++ body ++ "*/" ++ rest) = pre ++ " " ++ strip rest.
Proof.
  intros pre body rest Hpre Hlast Hbody.
  rewrite <- (app_assoc pre " ").
  apply strip_one_step. unfold strip_step.
  rewrite (VOID_START_search_app pre _ BlockComment Hpre (or_introl Hlast))
    by reflexivity.
  unfold find_from. simpl void_len.
  change 2 with (String.length "/*") at 1 2. rewrite drop_past.
  pose proof (find_app_first "*" "/" body rest Hbody) as Hf.
  change (find "*/" (body ++ "*/" ++ rest) = Some (String.length body)) in Hf.
  rewrite Hf.
  cbn [option_map]. simpl (("" ++ _)%string).
  rewrite take_app_length.
  do 2 rewrite drop_add. rewrite drop_past, drop_app_length. reflexivity.
Qed.

Lemma strip_block_comment_witness :
  strip ("a" ++ "/*" ++ " // 'x' * / " ++ "*/" ++ "b") = "a" ++ " " ++ strip "b".
Proof.
  apply (strip_block_comment "a" " // 'x' * / " "b");
    [reflexivity | discriminate | reflexivity].
Defined.

(** A string literal is removed with its quotes, whatever it holds: the
    literal ends at the first quote of its kind that no backslash precedes.
    With no such quote, everything from the opening quote on is removed. *)
Theorem strip_string_literal :
  forall (q : ascii) (pre body rest : string),
    q = squote \/ q = dquote ->
    VOID_START_search pre = None ->
    quote_end_from q false body = None ->
    last body <> Some backslash ->
    strip (pre ++ String q (body ++ String q rest)) = pre ++ strip rest /\
    strip (pre ++ String q body) = pre.
Proof.
  intros q pre body rest Hq Hpre Hbody Hlast.
  assert (Hesc : match last body with
                 | Some c => Ascii.eqb c backslash
                 | None => false
                 end = false).
  { destruct (last body) as [c|]; [|reflexivity].
    apply Ascii.eqb_neq. intros ->. now apply Hlast. }
  pose proof (quote_end_from_app q body rest false Hbody Hesc) as Hend.
  destruct Hq as [-> | ->].
  - split.
    + apply strip_one_step. unfold strip_step.
      rewrite (VOID_START_search_app pre _ SingleQuote Hpre)
        by (auto || reflexivity).
      simpl void_len. rewrite drop_add, drop_app_length. cbn [drop].
      unfold QUOTE_END_search. rewrite Hend.
      simpl (("" ++ _)%string). now rewrite take_app_length, drop_literal.
    + apply strip_break. unfold strip_step.
      rewrite (VOID_START_search_app pre _ SingleQuote Hpre)
        by (auto || reflexivity).
      simpl void_len. rewrite drop_add, drop_app_length. cbn [drop].
      unfold QUOTE_END_search. rewrite Hbody.
      simpl (("" ++ _)%string). now rewrite take_app_length.
  - split.
    + apply strip_one_step. unfold strip_step.
      rewrite (VOID_START_search_app pre _ DoubleQuote Hpre)
        by (auto || reflexivity).
      simpl void_len. rewrite drop_add, drop_app_length. cbn [drop].
      unfold DQUOTE_END_search. rewrite Hend.
      simpl (("" ++ _)%string). now rewrite take_app_length, drop_literal.
    + apply strip_break. unfold strip_step.
      rewrite (VOID_START_search_app pre _ DoubleQuote Hpre)
        by (auto || reflexivity).
      simpl void_len. rewrite drop_add, drop_app_length. cbn [drop].
      unfold DQUOTE_END_search. rewrite Hbody.
      simpl (("" ++ _)%string). now rewrite take_app_length.
Qed.

Lemma strip_string_literal_witness :
  strip ("s = " ++ String squote ("it\'s /* no comment" ++ String squote ";"))
    = "s = " ++ strip ";" /\
  strip ("s = " ++ String squote "it\'s /* no comment") = "s = ".
Proof.
  apply (strip_string_literal squote "s = " "it\'s /* no comment" ";");
    [now left | reflexivity | reflexivity | discriminate].
Defined.

Section EscapedQuote.

Lemma last_app_cons (a : string) (c : ascii) (s : string) :
  last (a ++ String c s) = last (String c s).
Proof.
  induction a as [|x a IH]; [reflexivity|].
  change (String x a ++ String c s) with (String x (a ++ String c s)).
  destruct a; exact IH.
Qed.

(** The search for the closing quote passes a quote that comes after a
    backslash, and goes on behind it with no backslash before it. *)
Lemma quote_end_from_escaped (q : ascii) (a s : string) :
  q <> backslash ->
  forall escaped,
    quote_end_from q escaped a = None ->
    quote_end_from q escaped (a ++ String backslash (String q s)) =
    option_map (fun n => String.length a + 2 + n) (quote_end_from q false s).
Proof.
  intros Hq. apply Ascii.eqb_neq in Hq.
  induction a as [|c a IH]; intros escaped Hnone.
  - cbn [append quote_end_from String.length Nat.add].
    rewrite (Ascii.eqb_sym backslash q), Hq, !Ascii.eqb_refl.
    cbn [andb negb].
    destruct (quote_end_from q false s); reflexivity.
  - cbn [quote_end_from] in Hnone.
    change (String c a ++ String backslash (String q s))
      with (String c (a ++ String backslash (String q s))).
    cbn [quote_end_from].
    destruct (Ascii.eqb c q && negb escaped); [discriminate|].
    destruct (quote_end_from q (Ascii.eqb c backslash) a) eqn:E;
      [discriminate|].
    rewrite (IH _ E).
    destruct (quote_end_from q false s); reflexivity.
Qed.

(** One iteration on a text whose first trigger opens a closed literal:
    the literal is dropped, the text before it is copied. *)
Lemma strip_step_literal (q : ascii) (pre body rest : string) :
  q = squote \/ q = dquote ->
  VOID_START_search pre = None ->
  quote_end_from q false body = None ->
  last body <> Some backslash ->
  strip_step (pre ++ String q (body ++ String q rest)) "" = Continue rest pre.
Proof.
  intros Hq Hpre Hbody Hlast.
  assert (Hesc : match last body with
                 | Some c => Ascii.eqb c backslash
                 | None => false
                 end = false).
  { destruct (last body) as [c|]; [|reflexivity].
    apply Ascii.eqb_neq. intros ->. now apply Hlast. }
  pose proof (quote_end_from_app q body rest false Hbody Hesc) as Hend.
  destruct Hq as [-> | ->]; unfold strip_step.
  - rewrite (VOID_START_search_app pre _ SingleQuote Hpre)
      by (auto || reflexivity).
    simpl void_len. rewrite drop_add, drop_app_length. cbn [drop].
    unfold QUOTE_END_search. rewrite Hend.
    simpl (("" ++ _)%string). now rewrite take_app_length, drop_literal.
  - rewrite (VOID_START_search_app pre _ DoubleQuote Hpre)
      by (auto || reflexivity).
    simpl void_len. rewrite drop_add, drop_app_length. cbn [drop].
    unfold DQUOTE_END_search. rewrite Hend.
    simpl (("" ++ _)%string). now rewrite take_app_length, drop_literal.
Qed.

(** The loop of [strip] returns, and what it returns is [strip text]. *)
Lemma strip_loop_returns (text : string) :
  strip_loop (S (String.length text)) text "" = Some (strip text).
Proof.
  pose proof (remove_comments_strings_run (split newline text)) as Hrun.
  cbv zeta in Hrun. now rewrite join_split in Hrun.
Qed.

End EscapedQuote.

(** C8.  A quote after a backslash does not end a string literal.  In a
    literal that holds a backslash and a quote of its kind, with no quote
    before them that ends the literal, the search for the closing quote
    passes that quote and stops at the next one that no backslash precedes;
    one iteration of the loop drops the whole span, and the loop returns the
    text before the literal and the stripped text after it.  The six
    characters quote a backslash quote b quote are one literal: the loop
    returns, in its second iteration, the empty text. *)
Theorem escaped_quote_does_not_terminate :
  (forall (q : ascii) (pre a b rest : string),
      q = squote \/ q = dquote ->
      VOID_START_search pre = None ->
      quote_end_from q false a = None ->
      quote_end_from q false b = None ->
      last b <> Some backslash ->
      let body := a ++ String backslash (String q b) in
      let text := pre ++ String q (body ++ String q rest) in
      quote_end_from q false (body ++ String q rest)
        = Some (String.length a + 2 + String.length b + 1) /\
      strip_step text "" = Continue rest pre /\
      strip text = pre ++ strip rest /\
      strip_loop (S (String.length text)) text "" = Some (pre ++ strip rest)) /\
  QUOTE_END_search "a\'b'" = Some 5 /\
  strip_step "'a\'b'" "" = Continue "" "" /\
  strip_loop 1 "'a\'b'" "" = None /\
  strip_loop 2 "'a\'b'" "" = Some "" /\
  strip "'a\'b'" = "".
Proof.
  split; [|repeat split].
  intros q pre a b rest Hq Hpre Ha Hb Hlast body text.
  assert (Hne : q <> backslash) by (destruct Hq as [-> | ->]; discriminate).
  assert (Hbody : quote_end_from q false body = None).
  { unfold body. rewrite (quote_end_from_escaped q a b Hne false Ha).
    now rewrite Hb. }
  assert (Hbl : last body <> Some backslash).
  { unfold body. rewrite last_app_cons.
    change (last (String backslash (String q b))) with (last (String q b)).
    destruct b as [|c b]; [intros [= E]; now apply Hne|].
    exact Hlast. }
  assert (Hesc : match last b with
                 | Some c => Ascii.eqb c backslash
                 | None => false
                 end = false).
  { destruct (last b) as [c|]; [|reflexivity].
    apply Ascii.eqb_neq. intros ->. now apply Hlast. }
  pose proof (strip_step_literal q pre body rest Hq Hpre Hbody Hbl) as Hstep.
  fold text in Hstep.
  pose proof (strip_one_step text rest pre Hstep) as Hstrip.
  split; [|split; [exact Hstep | split; [exact Hstrip|]]].
  - unfold body. rewrite app_assoc.
    change ((String backslash (String q b)) ++ String q rest)
      with (String backslash (String q (b ++ String q rest))).
    rewrite (quote_end_from_escaped q a _ Hne false Ha).
    rewrite (quote_end_from_app q b rest false Hb Hesc).
    cbn [option_map]. f_equal. lia.
  - rewrite <- Hstrip. apply strip_loop_returns.
Qed.

Lemma escaped_quote_does_not_terminate_witness :
  quote_end_from squote false
    (("it" ++ String backslash (String squote "s")) ++ String squote ";")
    = Some (String.length "it" + 2 + String.length "s" + 1) /\
  strip_step
    ("x = " ++ String squote
       (("it" ++ String backslash (String squote "s")) ++ String squote ";"))
    "" = Continue ";" "x = " /\
  strip
    ("x = " ++ String squote
       (("it" ++ String backslash (String squote "s")) ++ String squote ";"))
    = "x = " ++ strip ";" /\
  strip_loop
    (S (String.length
          ("x = " ++ String squote
             (("it" ++ String backslash (String squote "s"))
              ++ String squote ";"))))
    ("x = " ++ String squote
       (("it" ++ String backslash (String squote "s")) ++ String squote ";"))
    "" = Some ("x = " ++ strip ";").
Proof.
  apply (proj1 escaped_quote_does_not_terminate squote "x = " "it" "s" ";");
    [now left | reflexivity | reflexivity | reflexivity | discriminate].
Defined.

Section QuoteFree.

Variable q : ascii.
Hypothesis q_quote : q = squote \/ q = dquote.

Lemma contains_char_app (c : ascii) (a b : string) :
  contains (str1 c) (a ++ b) = contains (str1 c) a || contains (str1 c) b.
Proof.
  induction a as [|x a IH].
  - reflexivity.
  - change (String x a ++ b) with (String x (a ++ b)).
    rewrite !contains_cons, IH. cbn -[Ascii.eqb contains].
    now rewrite orb_assoc.
Qed.

Lemma VOID_START_match_none_quote (c : ascii) (s : string) :
  VOID_START_match (String c s) = None -> Ascii.eqb q c = false.
Proof.
  unfold VOID_START_match.
  destruct (startswith "//" _); [discriminate|].
  destruct (startswith "/*" _); [discriminate|].
  destruct (startswith (str1 dquote) _) eqn:E3; [discriminate|].
  destruct (startswith (str1 squote) _) eqn:E4; [discriminate|].
  intros _. cbn -[Ascii.eqb] in E3, E4. rewrite andb_true_r in E3, E4.
  now destruct q_quote as [-> | ->].
Qed.

(** The text before the first trigger holds no quote. *)
Lemma take_before_trigger (s : string) :
  forall i t, VOID_START_search s = Some (i, t) ->
              contains (str1 q) (take i s) = false.
Proof.
  induction s as [|c s IH]; intros i t; [discriminate|].
  cbn [VOID_START_search].
  destruct (VOID_START_match (String c s)) eqn:Em; [now intros [= <- _]|].
  destruct (VOID_START_search s) as [[j u]|]; [|discriminate].
  intros [= <- <-]. cbn [take]. rewrite contains_cons.
  cbn -[Ascii.eqb contains]. rewrite andb_true_r.
  now rewrite (VOID_START_match_none_quote _ _ Em), (IH j u).
Qed.

Lemma no_trigger_no_quote (s : string) :
  VOID_START_search s = None -> contains (str1 q) s = false.
Proof.
  intros H. apply VOID_START_search_none in H as (_ & _ & Hd & Hs).
  now destruct q_quote as [-> | ->].
Qed.

Lemma space_no_quote : contains (str1 q) " " = false.
Proof. now destruct q_quote as [-> | ->]. Qed.

(** An iteration puts no quote into [done]. *)
Lemma strip_step_quote_free (todo done : string) :
  contains (str1 q) done = false ->
  match strip_step todo done with
  | Break r => contains (str1 q) r = false
  | Continue _ done' => contains (str1 q) done' = false
  end.
Proof.
  intros Hd. unfold strip_step.
  destruct (VOID_START_search todo) as [[start t]|] eqn:E.
  - pose proof (take_before_trigger _ _ _ E) as Ht.
    assert (H1 : contains (str1 q) (done ++ take start todo) = false)
      by now rewrite contains_char_app, Hd, Ht.
    assert (H2 : contains (str1 q) ((done ++ take start todo) ++ " ") = false)
      by now rewrite contains_char_app, H1, space_no_quote.
    destruct t.
    + now destruct (find_from _ _ _).
    + now destruct (find_from _ _ _).
    + now destruct (DQUOTE_END_search _).
    + now destruct (QUOTE_END_search _).
  - now rewrite contains_char_app, Hd, (no_trigger_no_quote _ E).
Qed.

Lemma strip_loop_quote_free (fuel : nat) :
  forall todo done r,
    contains (str1 q) done = false ->
    strip_loop fuel todo done = Some r ->
    contains (str1 q) r = false.
Proof.
  induction fuel as [|fuel IH]; intros todo done r Hd; [discriminate|].
  simpl. pose proof (strip_step_quote_free todo done Hd) as Hs.
  destruct (strip_step todo done) as [r'|todo' done'].
  - now intros [= <-].
  - now apply IH.
Qed.

End QuoteFree.

(** No quote character is left in the stripped text: every string literal
    is removed with its quotes, also an unterminated one. *)
Theorem strip_leaves_no_quote :
  forall text : string,
    contains (str1 squote) (strip text) = false /\
    contains (str1 dquote) (strip text) = false.
Proof.
  intros text.
  pose proof (remove_comments_strings_run (split newline text)) as Hrun.
  cbv zeta in Hrun. rewrite join_split in Hrun. fold (strip text) in Hrun.
  split.
  - apply (strip_loop_quote_free squote (or_introl eq_refl) _ _ "" _
             eq_refl Hrun).
  - apply (strip_loop_quote_free dquote (or_intror eq_refl) _ _ "" _
             eq_refl Hrun).
Qed.

(** * Hexadecimal text and addresses: properties *)

Section HexFacts.
Import Hex.

(** The two digits that [b2a_hex] writes for a byte decode to that byte. *)
Lemma fromhex_byte (b : Byte.byte) (rest : string) :
  fromhex (String (hex_char (Byte.to_N b / 16))
             (String (hex_char (Byte.to_N b mod 16)) rest)) =
  (bs <- fromhex rest ;; Returned (b :: bs)).
Proof. destruct b; reflexivity. Qed.

Lemma fromhex_b2a_hex (data : list Byte.byte) :
  fromhex (b2a_hex data) = Returned data.
Proof.
  induction data as [|b data IH]; [reflexivity|].
  cbn [b2a_hex]. rewrite fromhex_byte, IH. reflexivity.
Qed.

Lemma b2a_hex_no_prefix (data : list Byte.byte) :
  startswith "0x" (b2a_hex data) = false.
Proof. destruct data as [|b data]; [reflexivity|]. destruct b; reflexivity. Qed.

Lemma length_b2a_hex (data : list Byte.byte) :
  String.length (b2a_hex data) = 2 * List.length data.
Proof.
  induction data as [|b data IH]; [reflexivity|].
  cbn [b2a_hex String.length List.length]. rewrite IH. lia.
Qed.

Lemma safe_decode_hex_text (data : list Byte.byte) :
  safe_decode (b2a_hex data) = Returned data.
Proof.
  unfold safe_decode. rewrite b2a_hex_no_prefix. apply fromhex_b2a_hex.
Qed.

End HexFacts.

(** Round trip: the hexadecimal text of any bytes decodes to these bytes,
    with the prefix [0x] in front of it or without. *)
Theorem safe_decode_b2a_hex :
  forall data : list Byte.byte,
    safe_decode (Hex.b2a_hex data) = Returned data /\
    safe_decode ("0x" ++ Hex.b2a_hex data) = Returned data.
Proof.
  intros data. split; [apply safe_decode_hex_text|].
  unfold safe_decode. cbn [append startswith drop].
  rewrite !Ascii.eqb_refl. cbn [andb]. apply fromhex_b2a_hex.
Qed.

(** The prefix [0x] is optional and taken off once: with it or without it
    the result is the same, and a second prefix is a [ValueError], as is the
    prefix in upper case. *)
Theorem safe_decode_prefix :
  forall s : string,
    (startswith "0x" s = false -> safe_decode ("0x" ++ s) = safe_decode s) /\
    safe_decode ("0x0x" ++ s) = Raised ValueError /\
    safe_decode ("0X" ++ s) = Raised ValueError.
Proof.
  intros s. repeat split.
  intros H. unfold safe_decode at 2. rewrite H. reflexivity.
Qed.

Lemma safe_decode_prefix_witness :
  safe_decode ("0x" ++ "c0ffee") = safe_decode "c0ffee".
Proof. now apply (proj1 (safe_decode_prefix "c0ffee")). Defined.

(** A random address is forty lower-case hexadecimal digits with no prefix,
    and decodes to the twenty random bytes it was made from. *)
Theorem get_random_address_spec :
  forall urandom : nat -> list Byte.byte,
    List.length (urandom 20) = 20 ->
    String.length (get_random_address urandom) = 40 /\
    all_chars lower_hex (get_random_address urandom) = true /\
    safe_decode (get_random_address urandom) = Returned (urandom 20).
Proof.
  intros urandom Hlen. unfold get_random_address.
  rewrite length_b2a_hex, Hlen. split; [reflexivity|]. split.
  - clear Hlen. induction (urandom 20) as [|b data IH]; [reflexivity|].
    cbn [Hex.b2a_hex all_chars]. rewrite IH. now destruct b.
  - apply safe_decode_hex_text.
Qed.

Lemma get_random_address_spec_witness :
  String.length (get_random_address (fun n => repeat Byte.xa7 n)) = 40 /\
  all_chars lower_hex (get_random_address (fun n => repeat Byte.xa7 n)) = true /\
  safe_decode (get_random_address (fun n => repeat Byte.xa7 n))
  = Returned (repeat Byte.xa7 20).
Proof.
  apply (get_random_address_spec (fun n => repeat Byte.xa7 n)). reflexivity.
Defined.

Section DecodeFacts.
Import Hex.

Lemma hex_not_space (c : ascii) : Py_ISSPACE c = true -> is_hex c = false.
Proof.
  destruct c as [[|] [|] [|] [|] [|] [|] [|] [|]]; intros H;
    try reflexivity; discriminate H.
Qed.

(** What [fromhex] accepts: digits and whitespace only, and two digits for
    each byte of the result. *)
Lemma fromhex_returns (n : nat) :
  forall s bs,
    String.length s < n ->
    fromhex s = Returned bs ->
    all_chars (fun c => Py_ISSPACE c || is_hex c) s = true /\
    count_chars is_hex s = 2 * List.length bs.
Proof.
  induction n as [|n IH]; intros s bs Hlen; [lia|].
  destruct s as [|c s1]; [now intros [= <-]|].
  cbn [fromhex all_chars count_chars].
  destruct (Py_ISSPACE c) eqn:Ec.
  - intros H. apply IH in H as [H1 H2]; [|simpl in Hlen; lia].
    now rewrite (hex_not_space _ Ec), H1, H2.
  - unfold is_hex at 1 3.
    destruct (digit_value c) as [top|]; [|discriminate].
    destruct s1 as [|d s2]; [discriminate|].
    cbn [all_chars count_chars]. unfold is_hex at 1 3.
    destruct (digit_value d) as [bot|]; [|discriminate].
    destruct (fromhex s2) as [bs'|] eqn:E; [|discriminate].
    intros [= <-]. apply IH in E as [H1 H2]; [|simpl in Hlen; lia].
    rewrite H1, H2, !orb_true_r. cbn [List.length andb]. split; [reflexivity | lia].
Qed.

End DecodeFacts.

(** When [safe_decode] returns, the text after the optional prefix holds
    hexadecimal digits and ASCII whitespace only, and twice as many digits
    as the result has bytes: an odd number of digits or any other character
    is a [ValueError]. *)
Theorem safe_decode_returns :
  forall (s : string) (bs : list Byte.byte),
    safe_decode s = Returned bs ->
    let body := if startswith "0x" s then drop 2 s else s in
    all_chars (fun c => Hex.Py_ISSPACE c || is_hex c) body = true /\
    count_chars is_hex body = 2 * List.length bs /\
    2 * List.length bs <= String.length s.
Proof.
  intros s bs H body. unfold safe_decode in H.
  assert (H' : Hex.fromhex body = Returned bs)
    by (unfold body; now destruct (startswith "0x" s)).
  clear H; rename H' into H.
  destruct (fromhex_returns (S (String.length body)) body bs
              (Nat.lt_succ_diag_r _) H) as [H1 H2].
  repeat split; trivial. rewrite <- H2.
  assert (Hc : forall t, count_chars is_hex t <= String.length t).
  { induction t as [|c t IHt]; simpl; [lia|]. destruct (is_hex c); lia. }
  assert (Hb : String.length body <= String.length s).
  { unfold body. destruct (startswith "0x" s); [rewrite length_drop|]; lia. }
  specialize (Hc body). lia.
Qed.

Lemma safe_decode_returns_witness :
  all_chars (fun c => Hex.Py_ISSPACE c || is_hex c) "de ad BE EF" = true /\
  count_chars is_hex "de ad BE EF" = 2 * 4 /\
  2 * 4 <= String.length "0xde ad BE EF".
Proof.
  apply (safe_decode_returns "0xde ad BE EF"
           [Byte.xde; Byte.xad; Byte.xbe; Byte.xef]).
  reflexivity.
Defined.

Section IndexedAddressFacts.
Import Hex.

Lemma all_chars_app (f : ascii -> bool) (a b : string) :
  all_chars f (a ++ b) = all_chars f a && all_chars f b.
Proof.
  induction a as [|c a IH]; [reflexivity|]. simpl.
  now rewrite IH, andb_assoc.
Qed.

Lemma all_chars_repeat (f : ascii -> bool) (s : string) (n : nat) :
  all_chars f s = true -> all_chars f (repeat_string s n) = true.
Proof.
  intros H. induction n as [|n IH]; [reflexivity|]. simpl.
  now rewrite all_chars_app, H, IH.
Qed.

Lemma length_repeat_string (s : string) (n : nat) :
  String.length (repeat_string s n) = n * String.length s.
Proof.
  induction n as [|n IH]; [reflexivity|]. simpl.
  now rewrite length_app, IH.
Qed.

Lemma string_of_uint_hex (d : Hexadecimal.uint) :
  all_chars is_hex (HexadecimalString.NilEmpty.string_of_uint d) = true.
Proof. induction d; simpl; trivial. Qed.

Lemma hex_digits_hex (n : N) : all_chars is_hex (hex_digits n) = true.
Proof.
  unfold hex_digits, HexadecimalString.NilZero.string_of_uint.
  destruct (N.to_hex_uint n); try apply string_of_uint_hex. reflexivity.
Qed.

Lemma string_of_uint_empty (d : Hexadecimal.uint) :
  String.length (HexadecimalString.NilEmpty.string_of_uint d) = 0 ->
  d = Hexadecimal.Nil.
Proof. destruct d; simpl; intros H; try discriminate H. reflexivity. Qed.

(** One digit exactly for the numbers below 16. *)
Lemma hex_digits_one (n : N) :
  String.length (hex_digits n) = 1 <-> (n < 16)%N.
Proof.
  split.
  - unfold hex_digits, HexadecimalString.NilZero.string_of_uint. intros H.
    rewrite <- (HexadecimalN.Unsigned.of_to n).
    destruct (N.to_hex_uint n) as [|d|d|d|d|d|d|d|d|d|d|d|d|d|d|d|d];
      simpl in H; try (vm_compute; reflexivity);
      injection H as H; apply string_of_uint_empty in H; subst d;
      vm_compute; reflexivity.
  - intros H.
    assert (Hn : In n [0; 1; 2; 3; 4; 5; 6; 7; 8; 9; 10; 11; 12; 13; 14; 15]%N)
      by (simpl; lia).
    simpl in Hn. decompose [or] Hn; subst; try reflexivity. contradiction.
Qed.

Lemma hex_digits_length (n : N) : 1 <= String.length (hex_digits n).
Proof.
  unfold hex_digits, HexadecimalString.NilZero.string_of_uint.
  destruct (N.to_hex_uint n) eqn:E; simpl; try lia.
Qed.

Lemma is_hex_digit_value (c : ascii) :
  is_hex c = true ->
  Py_ISSPACE c = false /\ exists v, digit_value c = Some v.
Proof.
  intros H. split.
  - destruct (Py_ISSPACE c) eqn:E; [|reflexivity].
    apply hex_not_space in E. congruence.
  - unfold is_hex in H. destruct (digit_value c) as [v|]; [|discriminate].
    now exists v.
Qed.

(** An even number of digits always decodes, to half as many bytes. *)
Lemma fromhex_hex_pairs (k : nat) :
  forall s, String.length s = 2 * k -> all_chars is_hex s = true ->
            exists bs, fromhex s = Returned bs /\ List.length bs = k.
Proof.
  induction k as [|k IH]; intros s Hlen Hall.
  - destruct s; [now exists [] | discriminate].
  - destruct s as [|c [|d s]]; try (simpl in Hlen; lia).
    cbn [all_chars] in Hall.
    apply andb_true_iff in Hall as [Hc Hall].
    apply andb_true_iff in Hall as [Hd Hall].
    destruct (is_hex_digit_value _ Hc) as [Hsp [top Htop]].
    destruct (is_hex_digit_value _ Hd) as [_ [bot Hbot]].
    destruct (IH s) as (bs & Hbs & Hk); [simpl in Hlen; lia | exact Hall |].
    cbn [fromhex]. rewrite Hsp, Htop, Hbot, Hbs. cbn [bind].
    eexists. split; [reflexivity|]. simpl. now rewrite Hk.
Qed.

End IndexedAddressFacts.

(** For an index from 0 to 15 the address is [0x] and forty times the digit
    of the index: 42 characters, which decode to twenty bytes of value
    17 times the index. *)
Theorem get_indexed_address_small :
  forall index : Z,
    (0 <= index < 16)%Z ->
    get_indexed_address index =
      "0x" ++ Hex.repeat_string (str1 (Hex.hex_char (Z.to_N index))) 40 /\
    String.length (get_indexed_address index) = 42 /\
    safe_decode (get_indexed_address index) =
      Returned (repeat (Hex.byte_of_N (17 * Z.to_N index)) 20).
Proof.
  intros index H.
  assert (Hi : In index [0; 1; 2; 3; 4; 5; 6; 7; 8; 9; 10; 11; 12; 13; 14; 15]%Z)
    by (simpl; lia).
  simpl in Hi. decompose [or] Hi; subst; try contradiction;
    repeat split; vm_compute; reflexivity.
Qed.

Lemma get_indexed_address_small_witness :
  get_indexed_address 10 =
    "0x" ++ Hex.repeat_string (str1 (Hex.hex_char (Z.to_N 10))) 40 /\
  String.length (get_indexed_address 10) = 42 /\
  safe_decode (get_indexed_address 10) =
    Returned (repeat (Hex.byte_of_N (17 * Z.to_N 10)) 20).
Proof. apply (get_indexed_address_small 10). lia. Defined.

(** For every index that is not negative the text decodes, to twenty bytes
    for each hexadecimal digit of the index: it is a twenty-byte address
    for the indices below 16 only. *)
Theorem get_indexed_address_bytes :
  forall index : Z,
    (0 <= index)%Z ->
    exists bs : list Byte.byte,
      safe_decode (get_indexed_address index) = Returned bs /\
      List.length bs = 20 * String.length (Hex.hex_digits (Z.to_N index)) /\
      String.length (get_indexed_address index) = 2 + 2 * List.length bs /\
      (List.length bs = 20 <-> (index < 16)%Z).
Proof.
  intros index H.
  assert (Haddr : get_indexed_address index =
                  "0x" ++ Hex.repeat_string (Hex.hex_digits (Z.to_N index)) 40)
    by (destruct index; [reflexivity | reflexivity | lia]).
  set (h := Hex.hex_digits (Z.to_N index)) in *.
  destruct (fromhex_hex_pairs (20 * String.length h) (Hex.repeat_string h 40))
    as (bs & Hbs & Hlen).
  - rewrite length_repeat_string. lia.
  - apply all_chars_repeat, hex_digits_hex.
  - exists bs. rewrite Haddr. repeat split.
    + exact Hbs.
    + exact Hlen.
    + cbn [append String.length]. rewrite length_repeat_string. lia.
    + intros Hb. rewrite Hlen in Hb.
      assert (H1 : String.length h = 1) by lia.
      apply hex_digits_one in H1. lia.
    + intros Hi. rewrite Hlen.
      assert (H1 : String.length h = 1) by (apply hex_digits_one; lia).
      lia.
Qed.

Lemma get_indexed_address_bytes_witness :
  exists bs : list Byte.byte,
    safe_decode (get_indexed_address 255) = Returned bs /\
    List.length bs = 20 * String.length (Hex.hex_digits (Z.to_N 255)) /\
    String.length (get_indexed_address 255) = 2 + 2 * List.length bs /\
    (List.length bs = 20 <-> (255 < 16)%Z).
Proof. apply (get_indexed_address_bytes 255). lia. Defined.

(** For a negative index the text is no hexadecimal text: the sign of
    [hex(index)] is cut off and its [x] is repeated, and decoding it is a
    [ValueError]. *)
Theorem get_indexed_address_negative :
  forall index : Z,
    (index < 0)%Z ->
    startswith "0xx" (get_indexed_address index) = true /\
    safe_decode (get_indexed_address index) = Raised ValueError.
Proof.
  intros index H. destruct index as [|p|p]; try lia. split; reflexivity.
Qed.

Lemma get_indexed_address_negative_witness :
  startswith "0xx" (get_indexed_address (-1)) = true /\
  safe_decode (get_indexed_address (-1)) = Raised ValueError.
Proof. apply (get_indexed_address_negative (-1)). lia. Defined.

(** * The compiler invoker: properties *)

Section DictFacts2.
Import Solc.

Lemma dict_get_set_same (d : dict) (k : string) (v : json) :
  dict_get (dict_set d k v) k = Some v.
Proof.
  induction d as [|[k' v'] d IH]; simpl.
  - now rewrite String.eqb_refl.
  - destruct (String.eqb k' k) eqn:E; simpl.
    + now rewrite String.eqb_refl.
    + now rewrite E.
Qed.

Lemma dict_get_set_other (d : dict) (k k' : string) (v : json) :
  k <> k' -> dict_get (dict_set d k v) k' = dict_get d k'.
Proof.
  intros Hk. induction d as [|[k0 v0] d IH]; simpl.
  - apply String.eqb_neq in Hk. now rewrite Hk.
  - destruct (String.eqb_spec k0 k) as [->|Hk0]; simpl.
    + apply String.eqb_neq in Hk. now rewrite Hk.
    + now rewrite IH.
Qed.

End DictFacts2.

(** The settings of the request.  Loaded settings that are no dictionary are
    an error.  From a dictionary, the output selection is the fixed one,
    whatever the caller gave; the optimizer is the caller's, and disabled
    when the caller gave none; every other key is the caller's. *)
Theorem build_settings_spec :
  forall loaded : Solc.json,
    match Solc.build_settings loaded with
    | Solc.Ok settings =>
        exists d d',
          loaded = Solc.JObject d /\ settings = Solc.JObject d' /\
          Solc.dict_get d' "outputSelection"
            = Solc.dict_get Solc.output_selection "outputSelection" /\
          Solc.dict_get d' "optimizer"
            = Some match Solc.dict_get d "optimizer" with
                   | Some o => o
                   | None => Solc.JObject [("enabled", Solc.JBool false)]
                   end /\
          forall k, k <> "optimizer" -> k <> "outputSelection" ->
                    Solc.dict_get d' k = Solc.dict_get d k
    | Solc.Err e =>
        (forall d, loaded <> Solc.JObject d) /\
        (e = Solc.TypeError \/ e = Solc.AttributeError)
    end.
Proof.
  intros loaded. unfold Solc.build_settings.
  destruct loaded as [ |b|t|s|items|d]; simpl;
    try (split; [discriminate | auto]).
  - destruct (negb (contains "optimizer" s)); simpl;
      (split; [discriminate | auto]).
  - destruct (negb (existsb (Solc.is_string "optimizer") items)); simpl;
      (split; [discriminate | auto]).
  - destruct (Solc.dict_get d "optimizer") as [o|] eqn:E; simpl.
    + eexists d, _. repeat split.
      * apply dict_get_set_same.
      * rewrite dict_get_set_other by discriminate. now rewrite E.
      * intros k _ Hk. now rewrite dict_get_set_other by congruence.
    + eexists d, _. repeat split.
      * apply dict_get_set_same.
      * rewrite dict_get_set_other by discriminate. rewrite E.
        apply dict_get_set_same.
      * intros k Hk1 Hk2. now rewrite !dict_get_set_other by congruence.
Qed.

Section CommandFacts.
Import Solc.






End CommandFacts.


Section ErrorFacts.
Import Solc.

Variable py_repr : json -> string.

Lemma scan_errors_harmless (entries : list json) :
  forallb harmless entries = true -> scan_errors py_repr entries = Ok tt.
Proof.
  induction entries as [|e entries IH]; [reflexivity|]. cbn [forallb scan_errors].
  intros H. apply andb_true_iff in H as [He H]. unfold harmless in He.
  destruct (subscript e "severity") as [sev|]; [|discriminate]. cbn [bind].
  apply negb_true_iff in He. rewrite He. now apply IH.
Qed.

Lemma scan_errors_ok (entries : list json) :
  scan_errors py_repr entries = Ok tt -> forallb harmless entries = true.
Proof.
  induction entries as [|e entries IH]; [reflexivity|]. cbn [forallb scan_errors].
  unfold harmless at 1.
  destruct (subscript e "severity") as [sev|]; [|discriminate]. cbn [bind].
  destruct (is_string "error" sev).
  - destruct (subscript e "formattedMessage"); discriminate.
  - intros H. now rewrite IH.
Qed.

Lemma scan_errors_fatal (before after : list json) (e formatted : json) :
  forallb harmless before = true ->
  fatal e = true ->
  subscript e "formattedMessage" = Ok formatted ->
  scan_errors py_repr (before ++ e :: after) =
  Err (CompilerError (fatal_message (format_s py_repr formatted))).
Proof.
  intros Hb He Hf. induction before as [|b before IH].
  - cbn [app scan_errors]. unfold fatal in He.
    destruct (subscript e "severity") as [sev|]; [|discriminate]. cbn [bind].
    now rewrite He, Hf.
  - cbn [forallb] in Hb. apply andb_true_iff in Hb as [Hb1 Hb].
    cbn [app scan_errors]. unfold harmless in Hb1.
    destruct (subscript b "severity") as [sev|]; [|discriminate]. cbn [bind].
    apply negb_true_iff in Hb1. rewrite Hb1. now apply IH.
Qed.

Lemma check_errors_entries (response : json) (entries : list json) :
  errors_of response = Some entries ->
  check_errors py_repr response =
  (let* _ := scan_errors py_repr entries in Ok response).
Proof.
  unfold errors_of, check_errors.
  destruct response as [ | | | | |d]; try discriminate.
  destruct (dict_get d "errors") as [[ | | | |items| ]|]; try discriminate;
    now intros [= <-].
Qed.

End ErrorFacts.

(** The check of the response.  With only harmless entries the response is
    returned as it is.  Otherwise the first fatal entry ends the call with a
    [CompilerError] that carries its formatted message; the entries before
    it are passed over and those after it are not looked at.  And a response
    that is returned has only harmless entries. *)
Theorem check_errors_spec :
  forall (py_repr : Solc.json -> string) (response : Solc.json)
         (entries : list Solc.json),
    errors_of response = Some entries ->
    (forallb harmless entries = true <->
     Solc.check_errors py_repr response = Solc.Ok response) /\
    (forall before e after formatted,
        entries = (before ++ e :: after)%list ->
        forallb harmless before = true ->
        fatal e = true ->
        Solc.subscript e "formattedMessage" = Solc.Ok formatted ->
        Solc.check_errors py_repr response =
        Solc.Err (Solc.CompilerError
                    (Solc.fatal_message (Solc.format_s py_repr formatted)))).
Proof.
  intros py_repr response entries He.
  rewrite (check_errors_entries py_repr _ _ He). split; [split|].
  - intros H. now rewrite scan_errors_harmless.
  - destruct (Solc.scan_errors py_repr entries) as [[]|e] eqn:E;
      [|discriminate]. intros _. now apply (scan_errors_ok py_repr).
  - intros before e after formatted -> Hb Hf Hm.
    now rewrite (scan_errors_fatal py_repr before after e formatted).
Qed.

Lemma check_errors_spec_witness :
  Solc.check_errors (fun _ => "") sample_response =
  Solc.Err (Solc.CompilerError (Solc.fatal_message "parse error")).
Proof.
  refine (proj2 (check_errors_spec (fun _ => "") sample_response _ eq_refl)
            [_] _ [_] (Solc.JString "parse error")
            eq_refl eq_refl eq_refl eq_refl).
Defined.

(** Missing keys in the response.  A response that is no dictionary is an
    [AttributeError], and errors that are [null] are a [TypeError]; after
    harmless entries, an entry with no severity is a [KeyError], and so is a
    fatal entry with no formatted message. *)
Theorem check_errors_missing_key :
  forall (py_repr : Solc.json -> string) (response : Solc.json),
    ((forall d, response <> Solc.JObject d) ->
     Solc.check_errors py_repr response = Solc.Err Solc.AttributeError) /\
    (forall d, response = Solc.JObject d ->
               Solc.dict_get d "errors" = Some Solc.JNull ->
               Solc.check_errors py_repr response = Solc.Err Solc.TypeError) /\
    (forall entries before d after,
        errors_of response = Some entries ->
        entries = (before ++ Solc.JObject d :: after)%list ->
        forallb harmless before = true ->
        (Solc.dict_get d "severity" = None ->
         Solc.check_errors py_repr response =
         Solc.Err (Solc.KeyError "severity")) /\
        (fatal (Solc.JObject d) = true ->
         Solc.dict_get d "formattedMessage" = None ->
         Solc.check_errors py_repr response =
         Solc.Err (Solc.KeyError "formattedMessage"))).
Proof.
  intros py_repr response. split; [|split].
  - intros H. destruct response as [ | | | | |d]; try reflexivity.
    now elim (H d).
  - intros d -> H. unfold Solc.check_errors. now rewrite H.
  - intros entries before d after He -> Hb.
    rewrite (check_errors_entries py_repr _ _ He). clear He.
    assert (Hscan : forall rest,
               Solc.scan_errors py_repr (before ++ rest) =
               Solc.scan_errors py_repr rest).
    { intros rest. induction before as [|b before IH]; [reflexivity|].
      cbn [forallb] in Hb. apply andb_true_iff in Hb as [Hb1 Hb].
      cbn [app Solc.scan_errors]. unfold harmless in Hb1.
      destruct (Solc.subscript b "severity") as [sev|]; [|discriminate].
      cbn [Solc.bind]. apply negb_true_iff in Hb1. rewrite Hb1.
      now apply IH. }
    rewrite Hscan. cbn [Solc.scan_errors Solc.subscript]. split.
    + intros Hs. now rewrite Hs.
    + unfold fatal. cbn [Solc.subscript].
      destruct (Solc.dict_get d "severity") as [sev|]; [|discriminate].
      cbn [Solc.bind]. intros -> ->. reflexivity.
Qed.

Section InvokerFacts.
Import Solc.

Lemma build_settings_object (loaded settings : json) :
  build_settings loaded = Ok settings ->
  exists d d',
    loaded = JObject d /\ settings = JObject d' /\
    dict_get d' "outputSelection" = dict_get output_selection "outputSelection".
Proof.
  unfold build_settings.
  destruct loaded as [ |b|t|s|items|d]; simpl; try discriminate.
  - destruct (negb (contains "optimizer" s)); discriminate.
  - destruct (negb (existsb (is_string "optimizer") items)); discriminate.
  - destruct (dict_get d "optimizer"); simpl; intros [= <-];
      eexists d, _; repeat split; apply dict_get_set_same.
Qed.

End InvokerFacts.

(** When [get_solc_json] returns a response, nothing was logged and no entry
    of the response is fatal; the compiler was run with the command line and
    with a request whose settings are the loaded dictionary with the fixed
    output selection, and the response is its decoded output. *)
Theorem get_solc_json_returns :
  forall (solc_args : option string)
         (load_settings : string -> Solc.result Solc.json)
         (Popen_communicate : list string -> Solc.json -> Solc.popen_result)
         (decode : list Byte.byte -> option string)
         (json_loads : string -> option Solc.json)
         (py_repr : Solc.json -> string)
         (file solc_binary : string) (solc_settings_json : option string)
         (log : list Solc.log_entry) (response : Solc.json),
    Solc.get_solc_json solc_args load_settings Popen_communicate decode
      json_loads py_repr file solc_binary solc_settings_json
    = (log, Solc.Ok response) ->
    log = [] /\
    (forall entries, errors_of response = Some entries ->
                     forallb harmless entries = true) /\
    exists d d' stdout stderr out,
      Solc.load load_settings solc_settings_json = Solc.Ok (Solc.JObject d) /\
      Solc.dict_get d' "outputSelection"
        = Solc.dict_get Solc.output_selection "outputSelection" /\
      Popen_communicate (Solc.command solc_binary solc_args)
        (Solc.request file (Solc.JObject d')) = Solc.Completed stdout stderr /\
      decode stdout = Some out /\
      json_loads out = Some response.
Proof.
  intros solc_args load_settings Popen decode json_loads py_repr file binary
    path log response. unfold Solc.get_solc_json.
  destruct (Solc.load load_settings path) as [loaded|e] eqn:El;
    cbn [Solc.bind]; [|discriminate].
  destruct (Solc.build_settings loaded) as [settings|e] eqn:Eb; [|discriminate].
  destruct (build_settings_object _ _ Eb) as (d & d' & -> & -> & Hsel).
  destruct (Popen _ _) as [|e|stdout stderr] eqn:Ep; try discriminate.
  destruct (decode stdout) as [out|] eqn:Ed; [|discriminate].
  destruct (json_loads out) as [resp|] eqn:Ej; [|discriminate].
  intros [= <- Hc]. split; [reflexivity|].
  assert (resp = response).
  { unfold Solc.check_errors in Hc.
    destruct (match resp with Solc.JObject _ => _ | _ => _ end); [|discriminate].
    cbn [Solc.bind] in Hc. destruct (Solc.iterate a); [|discriminate].
    cbn [Solc.bind] in Hc. destruct (Solc.scan_errors py_repr a0); [|discriminate].
    now injection Hc. }
  subst resp. split.
  - intros entries He. rewrite (check_errors_entries py_repr _ _ He) in Hc.
    destruct (Solc.scan_errors py_repr entries) as [[]|] eqn:Es;
      [|discriminate]. now apply (scan_errors_ok py_repr).
  - now exists d, d', stdout, stderr, out.
Qed.

Lemma get_solc_json_returns_witness :
  [] = @nil Solc.log_entry /\
  (forall entries, errors_of (Solc.JObject []) = Some entries ->
                   forallb harmless entries = true) /\
  exists d d' stdout stderr out,
    Solc.load (fun _ => Solc.Err Solc.OSError) None = Solc.Ok (Solc.JObject d) /\
    Solc.dict_get d' "outputSelection"
      = Solc.dict_get Solc.output_selection "outputSelection" /\
    (fun _ _ => Solc.Completed [Byte.x7b; Byte.x7d] [])
      (Solc.command "solc" None) (Solc.request "a.sol" (Solc.JObject d'))
      = Solc.Completed stdout stderr /\
    (fun _ => Some "{}") stdout = Some out /\
    (fun _ => Some (Solc.JObject [])) out = Some (Solc.JObject []).
Proof.
  apply (get_solc_json_returns None (fun _ => Solc.Err Solc.OSError)
           (fun _ _ => Solc.Completed [Byte.x7b; Byte.x7d] [])
           (fun _ => Some "{}") (fun _ => Some (Solc.JObject []))
           (fun _ => "") "a.sol" "solc" None).
  reflexivity.
Defined.

(** The failures of [get_solc_json].  An error of reading the settings file
    ends the call as it is, a missing file included.  A missing compiler is
    a [CompilerError] with the text that says so.  Output that is no JSON
    is a [JSONDecodeError], logged once with the output and the error
    stream; nothing else is ever logged. *)
Theorem get_solc_json_failures :
  forall (solc_args : option string)
         (load_settings : string -> Solc.result Solc.json)
         (Popen_communicate : list string -> Solc.json -> Solc.popen_result)
         (decode : list Byte.byte -> option string)
         (json_loads : string -> option Solc.json)
         (py_repr : Solc.json -> string)
         (file solc_binary : string) (solc_settings_json : option string),
    let run := Solc.get_solc_json solc_args load_settings Popen_communicate
                 decode json_loads py_repr file solc_binary
                 solc_settings_json in
    let cmd := Solc.command solc_binary solc_args in
    (forall e, Solc.load load_settings solc_settings_json = Solc.Err e ->
               run = ([], Solc.Err e)) /\
    (forall loaded settings,
        Solc.load load_settings solc_settings_json = Solc.Ok loaded ->
        Solc.build_settings loaded = Solc.Ok settings ->
        (Popen_communicate cmd (Solc.request file settings) = Solc.NotFound ->
         run = ([], Solc.Err (Solc.CompilerError Solc.not_found_message))) /\
        (forall stdout stderr out,
            Popen_communicate cmd (Solc.request file settings)
              = Solc.Completed stdout stderr ->
            decode stdout = Some out ->
            json_loads out = None ->
            run = ([Solc.LogDecodeError out stderr],
                   Solc.Err Solc.JSONDecodeError))) /\
    (fst run <> [] -> snd run = Solc.Err Solc.JSONDecodeError).
Proof.
  intros solc_args load_settings Popen decode json_loads py_repr file binary
    path run cmd. unfold run, cmd, Solc.get_solc_json. split; [|split].
  - intros e ->. reflexivity.
  - intros loaded settings Hl Hb. rewrite Hl. cbn [Solc.bind]. rewrite Hb.
    split.
    + intros Hp. now rewrite Hp.
    + intros stdout stderr out Hp Hd Hj. now rewrite Hp, Hd, Hj.
  - destruct (Solc.load load_settings path) as [loaded|e];
      cbn [Solc.bind]; [|now intros []].
    destruct (Solc.build_settings loaded); [|now intros []].
    destruct (Popen _ _); try (now intros []).
    destruct (decode stdout) as [out|]; [|now intros []].
    destruct (json_loads out); [now intros [] | reflexivity].
Qed.

(** * The pragma parser on pragmas in their usual form *)

Section CanonicalPragma.
Import Pyparsing.

Lemma version3_app (a b c tail : string) :
  version3 a b c ++ tail = a ++ "." ++ b ++ "." ++ c ++ tail.
Proof.
  unfold version3. rewrite app_assoc. cbn [append]. now rewrite app_assoc.
Qed.

Lemma span_app (f : ascii -> bool) (w rest : string) :
  all_chars f w = true -> head_not f rest -> span f (w ++ rest) = (w, rest).
Proof.
  intros Hw Hr. induction w as [|c w IH].
  - destruct rest as [|d rest]; [reflexivity|]. simpl in *. now rewrite Hr.
  - cbn [all_chars] in Hw. apply andb_true_iff in Hw as [Hc Hw].
    change (String c w ++ rest) with (String c (w ++ rest)).
    cbn [span]. now rewrite Hc, (IH Hw).
Qed.

Lemma span_none (f : ascii -> bool) (s : string) :
  head_not f s -> span f s = (EmptyString, s).
Proof. intros H. exact (span_app f "" s eq_refl H). Qed.

Lemma head_not_app (f : ascii -> bool) (w rest : string) :
  w <> "" -> head_not f w -> head_not f (w ++ rest).
Proof. destruct w; [contradiction | trivial]. Qed.

(** [Word] takes the longest run of its characters. *)
Lemma Word_app (chars : string) (skip : bool) (ws w rest : string) :
  all_chars is_white ws = true -> (skip = false -> ws = "") ->
  w <> "" -> all_chars (fun c => mem c chars) w = true ->
  head_not is_white w ->
  head_not (fun c => mem c chars) rest ->
  Word chars skip (ws ++ w ++ rest) = Some ([w], rest).
Proof.
  intros Hws Hskip Hne Hw Hhw Hr. unfold Word, preParse.
  assert (Hpre : (if skip then snd (span is_white (ws ++ w ++ rest))
                  else ws ++ w ++ rest) = w ++ rest).
  { destruct skip.
    - rewrite span_app; [reflexivity | exact Hws |].
      now apply head_not_app.
    - now rewrite (Hskip eq_refl). }
  rewrite Hpre, span_app by assumption.
  destruct w; [contradiction | reflexivity].
Qed.

Lemma Word_fail (chars : string) (skip : bool) (ws rest : string) :
  all_chars is_white ws = true -> (skip = false -> ws = "") ->
  head_not is_white rest ->
  head_not (fun c => mem c chars) rest ->
  Word chars skip (ws ++ rest) = None.
Proof.
  intros Hws Hskip Hhw Hr. unfold Word, preParse.
  assert (Hpre : (if skip then snd (span is_white (ws ++ rest))
                  else ws ++ rest) = rest).
  { destruct skip.
    - now rewrite span_app.
    - now rewrite (Hskip eq_refl). }
  rewrite Hpre, span_none by assumption. reflexivity.
Qed.

(** What a digit is not. *)
Lemma digit_other (c : ascii) :
  isdigit c = true ->
  is_white c = false /\ re_space c = false /\
  mem c "^" = false /\ mem c "=" = false /\
  mem c "<" = false /\ mem c ">" = false /\ Ascii.eqb c "." = false.
Proof.
  destruct c as [[|] [|] [|] [|] [|] [|] [|] [|]]; intros H;
    try discriminate H; repeat split; reflexivity.
Qed.

Lemma digits_head (s : string) :
  digits s -> exists c s', s = String c s' /\ isdigit c = true.
Proof.
  intros [Hne Hall]. destruct s as [|c s']; [contradiction|].
  cbn [all_chars] in Hall. apply andb_true_iff in Hall as [Hc _].
  now exists c, s'.
Qed.

Lemma re_digits_app (n rest : string) :
  digits n -> head_not isdigit rest -> re_digits (n ++ rest) = Some (n, rest).
Proof.
  intros [Hne Hall] Hr. unfold re_digits. rewrite span_app by assumption.
  destruct n; [contradiction | reflexivity].
Qed.

(** The version pattern on a version of three numbers: the match is the
    version, whatever follows it that is no digit. *)
Lemma version_re_match_three (a b c tail : string) :
  digits a -> digits b -> digits c -> head_not isdigit tail ->
  version_re_match (a ++ "." ++ b ++ "." ++ c ++ tail) =
  Some (a ++ "." ++ b ++ "." ++ c, tail).
Proof.
  intros Ha Hb Hc Ht. unfold version_re_match.
  destruct (digits_head _ Ha) as (a0 & a' & Ea & Ha0).
  destruct (digits_head _ Hb) as (b0 & b' & Eb & Hb0).
  destruct (digits_head _ Hc) as (c0 & c' & Ec & Hc0).
  rewrite (span_none re_space)
    by (rewrite Ea; simpl; apply (digit_other _ Ha0)).
  rewrite re_digits_app by (trivial || reflexivity).
  rewrite (span_none re_space ("." ++ _)) by reflexivity.
  cbn [append re_char]. rewrite Ascii.eqb_refl.
  rewrite (span_none re_space)
    by (rewrite Eb; simpl; apply (digit_other _ Hb0)).
  rewrite re_digits_app by (trivial || reflexivity).
  rewrite (span_none re_space (String "." _)) by reflexivity.
  cbn [re_char]. rewrite Ascii.eqb_refl.
  rewrite (span_none re_space)
    by (rewrite Ec; simpl; apply (digit_other _ Hc0)).
  rewrite re_digits_app by assumption.
  cbn [append]. rewrite app_nil_r, app_assoc. reflexivity.
Qed.

End CanonicalPragma.
Section CanonicalPragma2.
Import Pyparsing.

Lemma And_ok (a b : ParserElement) (skip : bool) (s s1 s2 : string) ta tb :
  a skip s = Some (ta, s1) -> b skip s1 = Some (tb, s2) ->
  And a b skip s = Some ((ta ++ tb)%list, s2).
Proof. intros Ha Hb. unfold And. now rewrite Ha, Hb. Qed.

Lemma isdigit_cases (d : ascii) :
  isdigit d = true ->
  In d ["0"; "1"; "2"; "3"; "4"; "5"; "6"; "7"; "8"; "9"]%char.
Proof.
  destruct d as [[|] [|] [|] [|] [|] [|] [|] [|]]; intros H;
    try discriminate H; simpl; tauto.
Qed.

(** The optional prefix in front of a version. *)
Lemma prefix_app (op : string) (d : ascii) (r : string) :
  In op [""; "^"; "="; ">"; "<"; ">="; "<="] -> isdigit d = true ->
  Optional (MatchFirst Grammar.carrot Grammar.inequality) true
    (" " ++ op ++ String d r) =
  Some (match op with EmptyString => [] | _ => [op] end,
        match op with EmptyString => " " ++ String d r | _ => String d r end).
Proof.
  intros Hop Hd. apply isdigit_cases in Hd. simpl in Hop, Hd.
  decompose [or] Hop; decompose [or] Hd; subst; try contradiction;
    reflexivity.
Qed.

(** The comparison in front of the second version. *)
Lemma inequality_app (sep op : string) (d : ascii) (r : string) :
  sep = "" \/ sep = " " ->
  In op ["="; ">"; "<"; ">="; "<="] -> isdigit d = true ->
  Grammar.inequality true (sep ++ op ++ String d r) = Some ([op], String d r).
Proof.
  intros Hsep Hop Hd. apply isdigit_cases in Hd. simpl in Hop, Hd.
  destruct Hsep; decompose [or] Hop; decompose [or] Hd; subst;
    try contradiction; reflexivity.
Qed.

Lemma version_app (sep a b c tail : string) :
  sep = "" \/ sep = " " ->
  digits a -> digits b -> digits c -> head_not isdigit tail ->
  Grammar.version true (sep ++ version3 a b c ++ tail) =
  Some ([version3 a b c], tail).
Proof.
  intros Hsep Ha Hb Hc Ht. rewrite version3_app.
  unfold Grammar.version, Regex, preParse.
  destruct (digits_head _ Ha) as (a0 & a' & Ea & Ha0).
  assert (Hpre : snd (span is_white (sep ++ a ++ "." ++ b ++ "." ++ c ++ tail))
                 = a ++ "." ++ b ++ "." ++ c ++ tail).
  { rewrite span_app; [reflexivity | now destruct Hsep; subst |].
    rewrite Ea. simpl. apply (digit_other _ Ha0). }
  rewrite Hpre, version_re_match_three by assumption. reflexivity.
Qed.

(** Nothing or a semicolon after the version: there is no second version. *)
Lemma max_version_none (tail : string) :
  tail = "" \/ (exists t, tail = String ";" t) ->
  Optional Grammar.max_version true tail = Some ([], tail).
Proof. intros [-> | [t ->]]; reflexivity. Qed.

Lemma expandtabs_plain (s tail : string) :
  forall col, all_chars plain s = true ->
              expandtabs col (s ++ tail) =
              s ++ expandtabs (col + String.length s) tail.
Proof.
  induction s as [|x s IH]; intros col Hs.
  - simpl. now rewrite Nat.add_0_r.
  - cbn [all_chars] in Hs. apply andb_true_iff in Hs as [Hx Hs].
    unfold plain in Hx. apply negb_true_iff in Hx.
    apply orb_false_iff in Hx as [Hx Hx3].
    apply orb_false_iff in Hx as [Hx1 Hx2].
    change (String x s ++ tail) with (String x (s ++ tail)).
    cbn [expandtabs]. rewrite Hx1, Hx2, Hx3. cbn [orb].
    rewrite IH by exact Hs. simpl. f_equal. f_equal. f_equal. lia.
Qed.

Lemma digits_plain (s : string) :
  all_chars isdigit s = true -> all_chars plain s = true.
Proof.
  induction s as [|x s IH]; [reflexivity|]. cbn [all_chars]. intros H.
  apply andb_true_iff in H as [Hx Hs]. rewrite (IH Hs), andb_true_r.
  clear - Hx. destruct x as [[|] [|] [|] [|] [|] [|] [|] [|]];
    try discriminate Hx; reflexivity.
Qed.

Lemma version_plain (a b c : string) :
  digits a -> digits b -> digits c ->
  all_chars plain (version3 a b c) = true.
Proof.
  intros [_ Ha] [_ Hb] [_ Hc]. unfold version3. rewrite !all_chars_app.
  now rewrite (digits_plain a Ha), (digits_plain b Hb), (digits_plain c Hc).
Qed.

Lemma head_not_digit_expandtabs (col : nat) (tail : string) :
  head_not isdigit tail -> head_not isdigit (expandtabs col tail).
Proof.
  destruct tail as [|x tail]; [trivial|]. cbn [head_not expandtabs].
  intros Hx. destruct (Ascii.eqb_spec x tab) as [->|_].
  - destruct (8 - col mod 8) eqn:E; [|reflexivity].
    pose proof (Nat.mod_upper_bound col 8). lia.
  - now destruct (Ascii.eqb x newline || Ascii.eqb x "013").
Qed.

End CanonicalPragma2.
Section CanonicalPragma3.
Import Pyparsing.

Lemma min_version_app (op a b c tail : string) :
  In op [""; "^"; "="; ">"; "<"; ">="; "<="] ->
  digits a -> digits b -> digits c -> head_not isdigit tail ->
  Grammar.min_version true (" " ++ op ++ version3 a b c ++ tail) =
  Some ((op_tokens op ++ [version3 a b c])%list, tail).
Proof.
  intros Hop Ha Hb Hc Ht. unfold Grammar.min_version.
  destruct (digits_head _ Ha) as (a0 & a' & Ea & Ha0).
  pose proof (prefix_app op a0 (a' ++ "." ++ b ++ "." ++ c ++ tail) Hop Ha0)
    as Hp.
  change (String a0 (a' ++ "." ++ b ++ "." ++ c ++ tail))
    with (String a0 a' ++ "." ++ b ++ "." ++ c ++ tail) in Hp.
  rewrite <- Ea, <- version3_app in Hp.
  eapply And_ok; [exact Hp|].
  destruct op as [|o op'].
  - now apply (version_app " "); [right| | | |].
  - now apply (version_app ""); [left| | | |].
Qed.

Lemma pragma_words (rest : string) :
  And (Word "pragma") (Word "solidity") true ("pragma solidity " ++ rest) =
  Some (["pragma"; "solidity"], " " ++ rest).
Proof. reflexivity. Qed.

Lemma has_digit_version3 (a b c : string) :
  digits a -> has_digit (version3 a b c) = true.
Proof.
  intros Ha. destruct (digits_head _ Ha) as (a0 & a' & -> & Ha0).
  simpl. now rewrite Ha0.
Qed.

Lemma remove_char_absent (x : ascii) (s : string) :
  all_chars (fun c => negb (Ascii.eqb c x)) s = true -> remove_char x s = s.
Proof.
  induction s as [|c s IH]; [reflexivity|]. cbn [all_chars remove_char].
  intros H. apply andb_true_iff in H as [Hc Hs].
  apply negb_true_iff in Hc. now rewrite Hc, IH.
Qed.

Lemma digits_no (x : ascii) (s : string) :
  isdigit x = false -> all_chars isdigit s = true ->
  all_chars (fun c => negb (Ascii.eqb c x)) s = true.
Proof.
  intros Hx. induction s as [|c s IH]; [reflexivity|]. cbn [all_chars].
  intros H. apply andb_true_iff in H as [Hc Hs]. rewrite (IH Hs), andb_true_r.
  apply negb_true_iff. destruct (Ascii.eqb_spec c x) as [->|]; congruence.
Qed.

(** A version of three numbers holds no blank. *)
Lemma remove_blanks_version3 (a b c : string) :
  digits a -> digits b -> digits c ->
  remove_blanks (version3 a b c) = version3 a b c.
Proof.
  intros [_ Ha] [_ Hb] [_ Hc]. unfold remove_blanks.
  assert (H : forall x, isdigit x = false -> Ascii.eqb "." x = false ->
                        remove_char x (version3 a b c) = version3 a b c).
  { intros x Hx Hdot. apply remove_char_absent. unfold version3.
    rewrite !all_chars_app.
    rewrite (digits_no x a), (digits_no x b), (digits_no x c) by assumption.
    cbn [all_chars]. now rewrite Hdot. }
  now rewrite !H.
Qed.

End CanonicalPragma3.

Lemma parse_pragma_one_version :
  forall op a b c tail : string,
    In op [""; "^"; "="; ">"; "<"; ">="; "<="] ->
    digits a -> digits b -> digits c ->
    tail = "" \/ (exists t, tail = String ";" t) ->
    exists d,
      parse_pragma ("pragma solidity " ++ op ++ version3 a b c ++ tail)
        = Returned d /\
      d = {| min_carrot := if String.eqb op "^" then "^" else "";
             min_inequality := if String.eqb op "^" then "" else op;
             min_version := version3 a b c;
             max_inequality := None; max_version := None |} /\
      version_spec d = version3 a b c.
Proof.
  intros op a b c tail Hop Ha Hb Hc Htail.
  eexists. split; [|split; [reflexivity|]].
  2: { unfold version_spec. cbn. now apply remove_blanks_version3. }
  unfold parse_pragma, Pyparsing.parseString.
  replace ("pragma solidity " ++ op ++ version3 a b c ++ tail)
    with (("pragma solidity " ++ op ++ version3 a b c) ++ tail)
    by now rewrite !app_assoc.
  rewrite expandtabs_plain.
  2: { rewrite !all_chars_app, (version_plain a b c Ha Hb Hc).
       simpl in Hop. decompose [or] Hop; subst; try contradiction;
         reflexivity. }
  set (tail' := Pyparsing.expandtabs _ tail).
  assert (Htail' : tail' = "" \/ (exists t, tail' = String ";" t)).
  { unfold tail'. destruct Htail as [-> | [t ->]]; [now left | right].
    cbn. eexists. reflexivity. }
  assert (Hd : head_not isdigit tail')
    by (destruct Htail' as [-> | [t ->]]; reflexivity).
  assert (Hparse :
    Grammar.pragma true (("pragma solidity " ++ op ++ version3 a b c) ++ tail')
    = Some ((["pragma"; "solidity"] ++ op_tokens op ++ [version3 a b c]) ++ [],
            tail')%list).
  { rewrite !app_assoc. unfold Grammar.pragma.
    eapply And_ok; [eapply And_ok; [apply pragma_words|]|].
    - now apply min_version_app.
    - now apply max_version_none. }
  rewrite Hparse. clear Hparse.
  pose proof (has_digit_not_operator _ (has_digit_version3 a b c Ha)) as [H1 H2].
  simpl in Hop. decompose [or] Hop; subst; try contradiction;
    cbn -[in_list String.eqb version3];
    rewrite ?H1, ?H2; reflexivity.
Qed.

(** A pragma with one version of three numbers, after one of the prefixes or
    none, and with nothing or a semicolon after it, is accepted: the prefix
    goes to [min_carrot] or [min_inequality], the version to [min_version],
    and there is no upper bound.  The constraint expression is the version
    alone, whatever the prefix was. *)
Theorem parse_pragma_single :
  forall op a b c tail : string,
    In op [""; "^"; "="; ">"; "<"; ">="; "<="] ->
    digits a -> digits b -> digits c ->
    tail = "" \/ (exists t, tail = String ";" t) ->
    exists d,
      parse_pragma ("pragma solidity " ++ op ++ version3 a b c ++ tail)
        = Returned d /\
      d = {| min_carrot := if String.eqb op "^" then "^" else "";
             min_inequality := if String.eqb op "^" then "" else op;
             min_version := version3 a b c;
             max_inequality := None; max_version := None |} /\
      version_spec d = version3 a b c.
Proof. exact parse_pragma_one_version. Qed.

Lemma parse_pragma_single_witness :
  exists d,
    parse_pragma ("pragma solidity " ++ ">=" ++ version3 "0" "8" "19" ++ ";")
      = Returned d /\
    d = {| min_carrot := if String.eqb ">=" "^" then "^" else "";
           min_inequality := if String.eqb ">=" "^" then "" else ">=";
           min_version := version3 "0" "8" "19";
           max_inequality := None; max_version := None |} /\
    version_spec d = version3 "0" "8" "19".
Proof.
  apply (parse_pragma_single ">=" "0" "8" "19" ";");
    try (split; [discriminate | reflexivity]).
  - simpl; tauto.
  - right. now exists "".
Defined.

Section CanonicalRange.
Import Pyparsing.

Lemma max_version_app (sep op a b c tail : string) :
  sep = "" \/ sep = " " ->
  In op ["="; ">"; "<"; ">="; "<="] ->
  digits a -> digits b -> digits c -> head_not isdigit tail ->
  Optional Grammar.max_version true (sep ++ op ++ version3 a b c ++ tail) =
  Some ([op; version3 a b c], tail).
Proof.
  intros Hsep Hop Ha Hb Hc Ht.
  destruct (digits_head _ Ha) as (a0 & a' & Ea & Ha0).
  pose proof (inequality_app sep op a0 (a' ++ "." ++ b ++ "." ++ c ++ tail)
                Hsep Hop Ha0) as Hi.
  change (String a0 (a' ++ "." ++ b ++ "." ++ c ++ tail))
    with (String a0 a' ++ "." ++ b ++ "." ++ c ++ tail) in Hi.
  rewrite <- Ea, <- version3_app in Hi.
  assert (Hand : And Grammar.inequality Grammar.version true
                   (sep ++ op ++ version3 a b c ++ tail)
                 = Some (([op] ++ [version3 a b c])%list, tail)).
  { eapply And_ok; [exact Hi|].
    now apply (version_app ""); [left| | | |]. }
  unfold Optional at 1, Grammar.max_version, Optional at 1.
  now rewrite Hand.
Qed.

Lemma head_not_digit_range (sep op rest : string) :
  sep = "" \/ sep = " " ->
  In op ["="; ">"; "<"; ">="; "<="] ->
  head_not isdigit (sep ++ op ++ rest).
Proof.
  intros Hsep Hop. simpl in Hop.
  destruct Hsep; decompose [or] Hop; subst; try contradiction; reflexivity.
Qed.

End CanonicalRange.

Lemma parse_pragma_two_versions :
  forall op1 a1 b1 c1 sep op2 a2 b2 c2 tail : string,
    In op1 ["^"; "="; ">"; "<"; ">="; "<="] ->
    In op2 ["="; ">"; "<"; ">="; "<="] ->
    sep = "" \/ sep = " " ->
    digits a1 -> digits b1 -> digits c1 ->
    digits a2 -> digits b2 -> digits c2 ->
    head_not isdigit tail ->
    exists d,
      parse_pragma ("pragma solidity " ++ op1 ++ version3 a1 b1 c1
                    ++ sep ++ op2 ++ version3 a2 b2 c2 ++ tail)
        = Returned d /\
      d = {| min_carrot := if String.eqb op1 "^" then "^" else "";
             min_inequality := if String.eqb op1 "^" then "" else op1;
             min_version := version3 a1 b1 c1;
             max_inequality := Some op2;
             max_version := Some (version3 a2 b2 c2) |} /\
      version_spec d =
        (if String.eqb op1 "^" then "" else op1) ++ version3 a1 b1 c1
        ++ "," ++ op2 ++ version3 a2 b2 c2.
Proof.
  intros op1 a1 b1 c1 sep op2 a2 b2 c2 tail Hop1 Hop2 Hsep
    Ha1 Hb1 Hc1 Ha2 Hb2 Hc2 Htail.
  eexists. split; [|split; [reflexivity|]].
  2: { unfold version_spec.
       cbn -[version3 String.eqb truthy remove_blanks].
       rewrite (has_digit_truthy _ (has_digit_version3 a2 b2 c2 Ha2)).
       now rewrite !remove_blanks_version3 by assumption. }
  unfold parse_pragma, Pyparsing.parseString.
  replace ("pragma solidity " ++ op1 ++ version3 a1 b1 c1
           ++ sep ++ op2 ++ version3 a2 b2 c2 ++ tail)
    with (("pragma solidity " ++ op1 ++ version3 a1 b1 c1
           ++ sep ++ op2 ++ version3 a2 b2 c2) ++ tail)
    by now rewrite !app_assoc.
  rewrite expandtabs_plain.
  2: { rewrite !all_chars_app, (version_plain a1 b1 c1 Ha1 Hb1 Hc1),
         (version_plain a2 b2 c2 Ha2 Hb2 Hc2).
       simpl in Hop1, Hop2.
       destruct Hsep; decompose [or] Hop1; decompose [or] Hop2; subst;
         try contradiction; reflexivity. }
  set (tail' := Pyparsing.expandtabs _ tail).
  assert (Hd : head_not isdigit tail')
    by now apply head_not_digit_expandtabs.
  assert (Hparse :
    Grammar.pragma true
      (("pragma solidity " ++ op1 ++ version3 a1 b1 c1
        ++ sep ++ op2 ++ version3 a2 b2 c2) ++ tail')
    = Some ((["pragma"; "solidity"] ++ op_tokens op1 ++ [version3 a1 b1 c1])
            ++ [op2; version3 a2 b2 c2], tail')%list).
  { rewrite !app_assoc. unfold Grammar.pragma.
    eapply And_ok; [eapply And_ok; [apply pragma_words|]|].
    - apply min_version_app; trivial.
      + simpl in *. tauto.
      + now apply head_not_digit_range.
    - now apply max_version_app. }
  rewrite Hparse. clear Hparse.
  simpl in Hop1. decompose [or] Hop1; subst; try contradiction; reflexivity.
Qed.

(** A range pragma, with a prefix before the first version and a comparison
    before the second, with one blank between the two bounds or none, is
    accepted: each bound has its operator and its version, and the constraint
    expression is the two bounds with a comma between them, the first
    without its operator when that is a caret. *)
Theorem parse_pragma_range :
  forall op1 a1 b1 c1 sep op2 a2 b2 c2 tail : string,
    In op1 ["^"; "="; ">"; "<"; ">="; "<="] ->
    In op2 ["="; ">"; "<"; ">="; "<="] ->
    sep = "" \/ sep = " " ->
    digits a1 -> digits b1 -> digits c1 ->
    digits a2 -> digits b2 -> digits c2 ->
    head_not isdigit tail ->
    exists d,
      parse_pragma ("pragma solidity " ++ op1 ++ version3 a1 b1 c1
                    ++ sep ++ op2 ++ version3 a2 b2 c2 ++ tail)
        = Returned d /\
      d = {| min_carrot := if String.eqb op1 "^" then "^" else "";
             min_inequality := if String.eqb op1 "^" then "" else op1;
             min_version := version3 a1 b1 c1;
             max_inequality := Some op2;
             max_version := Some (version3 a2 b2 c2) |} /\
      version_spec d =
        (if String.eqb op1 "^" then "" else op1) ++ version3 a1 b1 c1
        ++ "," ++ op2 ++ version3 a2 b2 c2.
Proof. exact parse_pragma_two_versions. Qed.

Lemma parse_pragma_range_witness :
  exists d,
    parse_pragma ("pragma solidity " ++ ">=" ++ version3 "0" "4" "22"
                  ++ " " ++ "<" ++ version3 "0" "9" "0" ++ ";")
      = Returned d /\
    d = {| min_carrot := if String.eqb ">=" "^" then "^" else "";
           min_inequality := if String.eqb ">=" "^" then "" else ">=";
           min_version := version3 "0" "4" "22";
           max_inequality := Some "<";
           max_version := Some (version3 "0" "9" "0") |} /\
    version_spec d =
      (if String.eqb ">=" "^" then "" else ">=") ++ version3 "0" "4" "22"
      ++ "," ++ "<" ++ version3 "0" "9" "0".
Proof.
  apply (parse_pragma_range ">=" "0" "4" "22" " " "<" "0" "9" "0" ";");
    try (split; [discriminate | reflexivity]); try reflexivity.
  - simpl; tauto.
  - simpl; tauto.
  - now right.
Defined.

(** * From the source text to the constraint: a pragma on the first line *)

Section FirstLine.

Lemma contains_head_absent (x : ascii) (p s : string) :
  all_chars (fun c => negb (Ascii.eqb x c)) s = true ->
  contains (String x p) s = false.
Proof.
  induction s as [|c s IH]; [reflexivity|]. cbn [all_chars]. intros H.
  apply andb_true_iff in H as [Hc Hs]. apply negb_true_iff in Hc.
  rewrite contains_cons, (IH Hs). cbn [startswith]. now rewrite Hc.
Qed.

Lemma quiet_no (x : ascii) (s : string) :
  quiet x = false -> all_chars quiet s = true ->
  all_chars (fun c => negb (Ascii.eqb x c)) s = true.
Proof.
  intros Hx. induction s as [|c s IH]; [reflexivity|]. cbn [all_chars].
  intros H. apply andb_true_iff in H as [Hc Hs]. rewrite (IH Hs), andb_true_r.
  apply negb_true_iff. destruct (Ascii.eqb_spec x c) as [->|]; congruence.
Qed.

Lemma quiet_no_trigger (s : string) :
  all_chars quiet s = true -> VOID_START_search s = None.
Proof.
  intros H. apply VOID_START_search_none.
  repeat split; apply contains_head_absent; now apply quiet_no.
Qed.

Lemma inert_quiet (s : string) :
  all_chars inert s = true -> all_chars quiet s = true.
Proof.
  induction s as [|c s IH]; [reflexivity|]. cbn [all_chars]. intros H.
  apply andb_true_iff in H as [Hc Hs]. rewrite (IH Hs), andb_true_r.
  unfold inert in Hc. now apply andb_true_iff in Hc as [Hc _].
Qed.

Lemma quiet_last (s : string) :
  all_chars quiet s = true -> last s <> Some "/"%char.
Proof.
  induction s as [|c s IH]; [discriminate|]. cbn [all_chars]. intros H.
  apply andb_true_iff in H as [Hc Hs]. destruct s as [|d s].
  - intros [= ->]. discriminate Hc.
  - now apply IH.
Qed.

(** A trigger after a text with none is found where it is in what
    follows. *)
Lemma VOID_START_search_shift (pre s : string) :
  VOID_START_search pre = None ->
  last pre <> Some "/"%char ->
  VOID_START_search (pre ++ s) =
  match VOID_START_search s with
  | Some (j, t) => Some (String.length pre + j, t)
  | None => None
  end.
Proof.
  intros Hpre Hlast. induction pre as [|c pre IH].
  - simpl. now destruct (VOID_START_search s) as [[j t]|].
  - cbn [VOID_START_search] in Hpre.
    destruct (VOID_START_match (String c pre)) eqn:Em; [discriminate|].
    destruct (VOID_START_search pre) as [[i u]|] eqn:Es; [discriminate|].
    assert (Hm : VOID_START_match (String c pre ++ s) = None).
    { destruct pre as [|d pre]; [|now rewrite VOID_START_match_app].
      assert (Hc : c <> "/"%char) by (intros ->; now apply Hlast).
      unfold VOID_START_match in *. cbn -[Ascii.eqb] in *.
      apply Ascii.eqb_neq in Hc. rewrite Ascii.eqb_sym in Hc.
      rewrite Hc in *. cbn -[Ascii.eqb] in *.
      destruct s; cbn -[Ascii.eqb]; rewrite ?andb_true_r in *; exact Em. }
    change (String c pre ++ s) with (String c (pre ++ s)) in *.
    cbn [VOID_START_search]. rewrite Hm, IH.
    + destruct (VOID_START_search s) as [[j t]|]; reflexivity.
    + reflexivity.
    + destruct pre; [discriminate | exact Hlast].
Qed.

Lemma take_app_more (pre s : string) (j : nat) :
  take (String.length pre + j) (pre ++ s) = pre ++ take j s.
Proof. induction pre as [|c pre IH]; simpl; [reflexivity | now rewrite IH]. Qed.

(** What comes before the first trigger is the start of the stripped
    text. *)
Lemma strip_keeps_start (pre rest : string) :
  VOID_START_search pre = None ->
  last pre <> Some "/"%char ->
  exists out, strip (pre ++ rest) = pre ++ out.
Proof.
  intros Hpre Hlast.
  pose proof (VOID_START_search_shift pre rest Hpre Hlast) as Hs.
  destruct (strip_step (pre ++ rest) "") as [r|todo done] eqn:E.
  - rewrite (strip_break _ _ E). unfold strip_step in E. rewrite Hs in E.
    destruct (VOID_START_search rest) as [[j t]|].
    + cbn [append] in E. rewrite take_app_more in E.
      destruct t; cbn -[take] in E;
        try (destruct (find_from _ _ _); discriminate E).
      * destruct (DQUOTE_END_search _); [discriminate E|].
        injection E as <-. now eexists.
      * destruct (QUOTE_END_search _); [discriminate E|].
        injection E as <-. now eexists.
    + injection E as <-. now exists rest.
  - rewrite (strip_one_step _ _ _ E). unfold strip_step in E. rewrite Hs in E.
    destruct (VOID_START_search rest) as [[j t]|]; [|discriminate E].
    cbn [append] in E. rewrite take_app_more in E.
    destruct t; cbn -[take] in E.
    + destruct (find_from _ _ _); injection E as <- <-;
        rewrite app_assoc; now eexists.
    + destruct (find_from _ _ _); injection E as <- <-;
        rewrite !app_assoc; now eexists.
    + destruct (DQUOTE_END_search _); [|discriminate E].
      injection E as <- <-. rewrite app_assoc. now eexists.
    + destruct (QUOTE_END_search _); [|discriminate E].
      injection E as <- <-. rewrite app_assoc. now eexists.
Qed.

End FirstLine.

Section FirstLinePragma.

Variable SimpleSpec : string -> outcome (Version -> bool).
Variable all_versions : list Version.

Lemma split_first_line (pre tail : string) :
  all_chars inert pre = true ->
  tail = "" \/ (exists t, tail = String newline t) ->
  exists lines, split newline (pre ++ tail) = pre :: lines.
Proof.
  intros Hpre Htail. induction pre as [|c pre IH].
  - destruct Htail as [-> | [t ->]]; simpl; now eexists.
  - cbn [all_chars] in Hpre. apply andb_true_iff in Hpre as [Hc Hpre].
    destruct (IH Hpre) as [lines E].
    change (String c pre ++ tail) with (String c (pre ++ tail)).
    cbn [split]. rewrite E.
    assert (Hn : Ascii.eqb c newline = false).
    { unfold inert in Hc. apply andb_true_iff in Hc as [_ Hc].
      now apply negb_true_iff in Hc. }
    rewrite Hn. now eexists.
Qed.

Lemma last_app_char (s : string) (c : ascii) : last (s ++ str1 c) = Some c.
Proof.
  induction s as [|x s IH]; [reflexivity|].
  change (String x s ++ str1 c) with (String x (s ++ str1 c)).
  cbn [last]. rewrite IH. now destruct s.
Qed.

Lemma init_app_char (s : string) (c : ascii) : init (s ++ str1 c) = s.
Proof.
  induction s as [|x s IH]; [reflexivity|].
  change (String x s ++ str1 c) with (String x (s ++ str1 c)).
  cbn [init]. rewrite IH. now destruct s.
Qed.

Lemma digits_inert (s : string) :
  all_chars isdigit s = true -> all_chars inert s = true.
Proof.
  induction s as [|x s IH]; [reflexivity|]. cbn [all_chars]. intros H.
  apply andb_true_iff in H as [Hx Hs]. rewrite (IH Hs), andb_true_r.
  clear - Hx. destruct x as [[|] [|] [|] [|] [|] [|] [|] [|]];
    try discriminate Hx; reflexivity.
Qed.

Lemma version_inert (a b c : string) :
  digits a -> digits b -> digits c ->
  all_chars inert (version3 a b c) = true.
Proof.
  intros [_ Ha] [_ Hb] [_ Hc]. unfold version3. rewrite !all_chars_app.
  now rewrite (digits_inert a Ha), (digits_inert b Hb), (digits_inert c Hc).
Qed.

(** The stripped text of a file whose first line holds no trigger starts
    with that line. *)
Lemma strip_first_line (pre rest : string) :
  all_chars inert pre = true ->
  rest = "" \/ (exists r, rest = String newline r) ->
  exists lines, split newline (strip (pre ++ rest)) = pre :: lines.
Proof.
  intros Hpre [-> | [r ->]].
  - rewrite app_nil_r.
    rewrite (strip_break pre pre).
    + destruct (split_first_line pre "" Hpre (or_introl eq_refl))
        as [lines E].
      rewrite app_nil_r in E. now exists lines.
    + unfold strip_step.
      now rewrite (quiet_no_trigger pre (inert_quiet pre Hpre)).
  - replace (pre ++ String newline r) with ((pre ++ str1 newline) ++ r)
      by now rewrite app_assoc.
    assert (Hq : all_chars quiet (pre ++ str1 newline) = true).
    { rewrite all_chars_app, (inert_quiet pre Hpre). reflexivity. }
    destruct (strip_keeps_start (pre ++ str1 newline) r) as [out E].
    + now apply quiet_no_trigger.
    + now apply quiet_last.
    + rewrite E, app_assoc.
      apply split_first_line; [exact Hpre | right; now eexists].
Qed.

(** A file whose first line is a pragma ending in a semicolon: the parser
    is given that line from the word [pragma] on, without the semicolon,
    whatever the lines after it hold. *)
Lemma extract_version_first_line (body rest : string) :
  all_chars inert body = true ->
  rest = "" \/ (exists r, rest = String newline r) ->
  extract_version SimpleSpec all_versions
    (Some ("pragma solidity " ++ body ++ ";" ++ rest)) =
  (_ <~ calling Call_remove_comments_strings (Returned tt) ;;
   pragma_dict <~ calling (Call_parse_pragma ("pragma solidity " ++ body))
                    (parse_pragma ("pragma solidity " ++ body)) ;;
   version_constraint <~ calling (Call_SimpleSpec (version_spec pragma_dict))
                           (SimpleSpec (version_spec pragma_dict)) ;;
   calling Loop_all_versions
     (Returned (resolve version_constraint all_versions))).
Proof.
  intros Hbody Hrest.
  set (line := "pragma solidity " ++ body).
  assert (Hpre : all_chars inert (line ++ ";") = true).
  { unfold line. now rewrite !all_chars_app, Hbody. }
  destruct (strip_first_line (line ++ ";") rest Hpre Hrest) as [lines E].
  unfold extract_version.
  replace ("pragma solidity " ++ body ++ ";" ++ rest)
    with ((line ++ ";") ++ rest) by (unfold line; now rewrite !app_assoc).
  unfold calling at 1. unfold bindT at 1.
  fold (strip ((line ++ ";") ++ rest)). rewrite E. clear E.
  assert (Hc : contains "pragma solidity" (line ++ ";") = true)
    by reflexivity.
  assert (Hr : rstrip (line ++ ";") = line ++ ";")
    by (apply (rstrip_app_nonspace line ";" ""); reflexivity).
  assert (Hf : slice_from_find "pragma" line = line) by reflexivity.
  cbn [find_version_line]. rewrite Hc. cbn [negb]. rewrite Hr, Hc. cbn [negb].
  change (line ++ ";") with (line ++ str1 ";").
  rewrite last_app_char, init_app_char.
  change (Ascii.eqb ";" ";") with true. cbv iota. rewrite Hf.
  reflexivity.
Qed.

End FirstLinePragma.

(** A file whose first line is [pragma solidity], a prefix or none, one
    version of three numbers and a semicolon: whatever follows that line, the
    comparator is asked for the version alone, without the prefix, and the
    result is the first version of the registry that it accepts and that is
    not excluded.  An exception of the comparator goes to the caller. *)
Theorem extract_version_single_pragma :
  forall (SimpleSpec : string -> outcome (Version -> bool))
         (all_versions : list Version) (op a b c rest : string),
    In op [""; "^"; "="; ">"; "<"; ">="; "<="] ->
    digits a -> digits b -> digits c ->
    rest = "" \/ (exists r, rest = String newline r) ->
    extract_version SimpleSpec all_versions
      (Some ("pragma solidity " ++ (op ++ version3 a b c) ++ ";" ++ rest)) =
    match SimpleSpec (version3 a b c) with
    | Returned version_constraint =>
        ([Call_remove_comments_strings;
          Call_parse_pragma ("pragma solidity " ++ op ++ version3 a b c);
          Call_SimpleSpec (version3 a b c); Loop_all_versions],
         Returned (resolve version_constraint all_versions))
    | Raised e =>
        ([Call_remove_comments_strings;
          Call_parse_pragma ("pragma solidity " ++ op ++ version3 a b c);
          Call_SimpleSpec (version3 a b c)], Raised e)
    end.
Proof.
  intros SimpleSpec all_versions op a b c rest Hop Ha Hb Hc Hrest.
  rewrite extract_version_first_line; [|
    rewrite all_chars_app, (version_inert a b c Ha Hb Hc);
    simpl in Hop; decompose [or] Hop; subst; try contradiction; reflexivity
    | exact Hrest].
  destruct (parse_pragma_one_version op a b c "" Hop Ha Hb Hc
              (or_introl eq_refl)) as (d & Hd & _ & Hspec).
  rewrite app_nil_r in Hd. rewrite Hd.
  unfold calling, bindT. rewrite Hspec.
  now destruct (SimpleSpec (version3 a b c)).
Qed.

Lemma extract_version_single_pragma_witness :
  extract_version exact_spec [release 0 8 18; release 0 8 19]
    (Some ("pragma solidity " ++ (">=" ++ version3 "0" "8" "19") ++ ";"
           ++ String newline "contract C { string s = 'pragma'; }")) =
  match exact_spec (version3 "0" "8" "19") with
  | Returned version_constraint =>
      ([Call_remove_comments_strings;
        Call_parse_pragma ("pragma solidity " ++ ">=" ++ version3 "0" "8" "19");
        Call_SimpleSpec (version3 "0" "8" "19"); Loop_all_versions],
       Returned (resolve version_constraint [release 0 8 18; release 0 8 19]))
  | Raised e =>
      ([Call_remove_comments_strings;
        Call_parse_pragma ("pragma solidity " ++ ">=" ++ version3 "0" "8" "19");
        Call_SimpleSpec (version3 "0" "8" "19")], Raised e)
  end.
Proof.
  apply (extract_version_single_pragma exact_spec
           [release 0 8 18; release 0 8 19] ">=" "0" "8" "19");
    try (split; [discriminate | reflexivity]).
  - simpl; tauto.
  - right. now eexists.
Defined.

(** A file whose first line is a range pragma ending in a semicolon:
    whatever follows that line, the comparator is asked for the two bounds
    with a comma between them, the first without its operator when that is
    a caret. *)
Theorem extract_version_range_pragma :
  forall (SimpleSpec : string -> outcome (Version -> bool))
         (all_versions : list Version)
         (op1 a1 b1 c1 sep op2 a2 b2 c2 rest : string),
    In op1 ["^"; "="; ">"; "<"; ">="; "<="] ->
    In op2 ["="; ">"; "<"; ">="; "<="] ->
    sep = "" \/ sep = " " ->
    digits a1 -> digits b1 -> digits c1 ->
    digits a2 -> digits b2 -> digits c2 ->
    rest = "" \/ (exists r, rest = String newline r) ->
    let line := "pragma solidity " ++ op1 ++ version3 a1 b1 c1
                ++ sep ++ op2 ++ version3 a2 b2 c2 in
    let spec := (if String.eqb op1 "^" then "" else op1)
                ++ version3 a1 b1 c1 ++ "," ++ op2 ++ version3 a2 b2 c2 in
    extract_version SimpleSpec all_versions (Some (line ++ ";" ++ rest)) =
    match SimpleSpec spec with
    | Returned version_constraint =>
        ([Call_remove_comments_strings; Call_parse_pragma line;
          Call_SimpleSpec spec; Loop_all_versions],
         Returned (resolve version_constraint all_versions))
    | Raised e =>
        ([Call_remove_comments_strings; Call_parse_pragma line;
          Call_SimpleSpec spec], Raised e)
    end.
Proof.
  intros SimpleSpec all_versions op1 a1 b1 c1 sep op2 a2 b2 c2 rest
    Hop1 Hop2 Hsep Ha1 Hb1 Hc1 Ha2 Hb2 Hc2 Hrest line spec.
  unfold line at 1.
  replace (("pragma solidity " ++ op1 ++ version3 a1 b1 c1
            ++ sep ++ op2 ++ version3 a2 b2 c2) ++ ";" ++ rest)
    with ("pragma solidity " ++ (op1 ++ version3 a1 b1 c1
            ++ sep ++ op2 ++ version3 a2 b2 c2) ++ ";" ++ rest)
    by now rewrite !app_assoc.
  rewrite extract_version_first_line; [|
    rewrite !all_chars_app, (version_inert a1 b1 c1 Ha1 Hb1 Hc1),
      (version_inert a2 b2 c2 Ha2 Hb2 Hc2);
    simpl in Hop1, Hop2;
    destruct Hsep; decompose [or] Hop1; decompose [or] Hop2; subst;
      try contradiction; reflexivity
    | exact Hrest].
  destruct (parse_pragma_two_versions op1 a1 b1 c1 sep op2 a2 b2 c2 ""
              Hop1 Hop2 Hsep Ha1 Hb1 Hc1 Ha2 Hb2 Hc2 I)
    as (d & Hd & _ & Hspec).
  rewrite !app_nil_r in Hd. fold line in Hd |- *. rewrite Hd.
  unfold calling, bindT. rewrite Hspec. fold spec.
  now destruct (SimpleSpec spec).
Qed.

Lemma extract_version_range_pragma_witness :
  let line := "pragma solidity " ++ ">=" ++ version3 "0" "4" "22"
              ++ " " ++ "<" ++ version3 "0" "9" "0" in
  let spec := (if String.eqb ">=" "^" then "" else ">=")
              ++ version3 "0" "4" "22" ++ "," ++ "<" ++ version3 "0" "9" "0" in
  extract_version exact_spec [release 0 8 19]
    (Some (line ++ ";" ++ String newline "contract C { /* >=0.9.0 */ }")) =
  match exact_spec spec with
  | Returned version_constraint =>
      ([Call_remove_comments_strings; Call_parse_pragma line;
        Call_SimpleSpec spec; Loop_all_versions],
       Returned (resolve version_constraint [release 0 8 19]))
  | Raised e =>
      ([Call_remove_comments_strings; Call_parse_pragma line;
        Call_SimpleSpec spec], Raised e)
  end.
Proof.
  apply (extract_version_range_pragma exact_spec [release 0 8 19]
           ">=" "0" "4" "22" " " "<" "0" "9" "0");
    try (split; [discriminate | reflexivity]).
  - simpl; tauto.
  - simpl; tauto.
  - now right.
  - right. now eexists.
Defined.

(** * The compiler that [extract_binary] selects *)

Section BinaryFacts.

Lemma resolve_in (version_constraint : Version -> bool)
  (all_versions : list Version) (s : string) :
  resolve version_constraint all_versions = Some s ->
  exists version, In version all_versions /\ Version_str version = s /\
                  version_constraint version = true.
Proof.
  induction all_versions as [|v rest IH]; [discriminate|]. simpl.
  destruct (version_constraint v) eqn:Ev.
  - destruct (contains "0.5.17" (Version_str v)).
    + intros H. destruct (IH H) as (w & Hin & Hw). exists w. tauto.
    + intros [= <-]. exists v. tauto.
  - intros H. destruct (IH H) as (w & Hin & Hw). exists w. tauto.
Qed.

End BinaryFacts.

(** What [extract_binary] returns.  Without a version, the compiler is the
    value of [SOLC], or [solc] when that is unset or empty, and [solcx] has
    not been called.  With a version, that version is the text of an entry
    of the registry that the constraint of the pragma accepts, it does not
    contain [0.5.17], and the compiler is the one that [solcx] gave for the
    tag made of the letter v and that version, asked for last. *)
Theorem extract_binary_returns :
  forall (SimpleSpec : string -> outcome (Version -> bool))
         (all_versions : list Version)
         (solcx_executable : string -> outcome string)
         (file_data : string) (environ_SOLC : option string)
         (trace : list call) (binary : string) (version : option string),
    extract_binary SimpleSpec all_versions solcx_executable file_data
      environ_SOLC = (trace, Returned (binary, version)) ->
    match version with
    | None =>
        binary = py_or environ_SOLC "solc" /\
        (forall v, ~ In (Call_solc_exists v) trace)
    | Some v =>
        solcx_executable ("v" ++ v) = Returned binary /\
        contains "0.5.17" v = false /\
        (exists line spec version_constraint entry,
            SimpleSpec spec = Returned version_constraint /\
            In entry all_versions /\ Version_str entry = v /\
            version_constraint entry = true /\
            trace = [Call_remove_comments_strings; Call_parse_pragma line;
                     Call_SimpleSpec spec; Loop_all_versions;
                     Call_solc_exists v])
    end.
Proof.
  intros SimpleSpec reg exe file_data env trace binary version H.
  unfold extract_binary in H.
  pose proof (extract_version_cases SimpleSpec reg (Some file_data)) as Hc.
  cbv zeta in Hc.
  destruct (extract_version SimpleSpec reg (Some file_data)) as [t r].
  cbn [fst snd] in Hc.
  destruct Hc as [[-> Ht] | [[e ->] | (line & spec & vc & -> & Hs & ->)]].
  - destruct Ht as [-> | ->]; cbn in H; injection H as <- <- <-;
      (split; [reflexivity|]); intros v Hin; simpl in Hin;
      intuition discriminate.
  - discriminate H.
  - destruct (resolve vc reg) as [v|] eqn:Er; cbn in H.
    + unfold solc_exists in H. destruct (exe ("v" ++ v)) as [b|e] eqn:Ee;
        cbn in H; [|discriminate H].
      injection H as <- <- <-. split; [exact Ee|].
      split; [now apply (resolve_not_excluded reg vc)|].
      destruct (resolve_in vc reg v Er) as (entry & Hin & Hv & Hvc).
      now exists line, spec, vc, entry.
    + injection H as <- <- <-. split; [reflexivity|].
      intros v Hin; simpl in Hin; intuition discriminate.
Qed.

Lemma extract_binary_returns_witness :
  solcx_sample ("v" ++ "0.8.19") = Returned "/solcx/solc-v0.8.19" /\
  contains "0.5.17" "0.8.19" = false /\
  (exists line spec version_constraint entry,
      exact_spec spec = Returned version_constraint /\
      In entry [release 0 8 18; release 0 8 19] /\
      Version_str entry = "0.8.19" /\
      version_constraint entry = true /\
      [Call_remove_comments_strings;
       Call_parse_pragma "pragma solidity ^0.8.19";
       Call_SimpleSpec "0.8.19"; Loop_all_versions;
       Call_solc_exists "0.8.19"] =
      [Call_remove_comments_strings; Call_parse_pragma line;
       Call_SimpleSpec spec; Loop_all_versions; Call_solc_exists "0.8.19"]).
Proof.
  apply (extract_binary_returns exact_spec [release 0 8 18; release 0 8 19]
           solcx_sample "pragma solidity ^0.8.19;" None _ _ (Some "0.8.19")).
  reflexivity.
Defined.
